(** * Session lifecycle of [backend/src/libs/wbot.ts]

    A shallow embedding of the session registry, the bounded retry
    controller and the event handlers installed by [initWbot], together
    with the properties the specification states about them.

    The external collaborators (the chat engine client, the message
    pipeline, the socket layer) are not part of the program.  Their
    answers are taken from an environment [Env]; every call the program
    makes to them is recorded, in program order, in the [trace] of the
    [World].

    What the model takes for granted:
    - a listener runs to completion, an [await] being the sequencing of
      the monad [M]: in both listeners that write to the registry the
      test and the push are one synchronous stretch of code.
      [removeWbot] is different, it reads an index, awaits, and then
      splices at that index; it is modelled in its two stretches
      ([removeWbot_start], [removeWbot_resume]) so that other steps can
      run between them;
    - [whatsapp.update], [io.emit], [qrCode.generate] and the logger
      return normally;
    - identities and counters are integers ([Z]); [null] and [""] are
      not told apart for [whatsapp.session], both being falsy;
    - one closure of [initWbot] is followed at a time, next to the
      registry that all closures share. *)

From stdpp Require Import base decidable option list strings.
From Equations Require Import Equations.
From Stdlib Require Import ZArith Lia.

Local Open Scope Z_scope.
Local Open Scope string_scope.
Local Open Scope list_scope.

(** ** Data *)

(** Values that are thrown.  [AppError] is the application's own error
    class; everything raised by a collaborator is [External]. *)
Inductive Err :=
| AppError (message : string)
| External (what : string).

#[global] Instance Err_eq_dec : EqDecision Err.
Proof. solve_decision. Defined.

(** The account row ([models/Whatsapp]).  [update] writes the given
    fields on the instance and saves it; the instance is the persisted
    record. *)
Module Whatsapp.
Record t := mk {
  id : Z;
  name : string;
  session : string;
  status : string;
  qrcode : string;
  retries : Z
}.
End Whatsapp.

#[global] Instance Whatsapp_eq_dec : EqDecision Whatsapp.t.
Proof. solve_decision. Defined.

(** [interface Session extends Client { id?: number }].  [client] names
    the engine object built by [new Client]; [id] is the optional tag,
    [None] while it is undefined. *)
Module Session.
Record t := mk {
  client : nat;
  id : option Z
}.
End Session.

#[global] Instance Session_eq_dec : EqDecision Session.t.
Proof. solve_decision. Defined.

(** A conversation summary and a message, as far as the program looks
    into them. *)
Record Chat := mkChat {
  chat_ref : nat;
  unreadCount : Z
}.

Definition Message := nat.

#[global] Instance Chat_eq_dec : EqDecision Chat.
Proof. solve_decision. Defined.

(** A call of [removeWbot] suspended at its [await] (line 217): the
    index it found before, and the answer its [destroy] will be resumed
    with. *)
Record Removal := mkRemoval {
  found_at : Z;
  destroy_answer : option Err
}.

(** The promise returned by [initWbot]. *)
Inductive Promise :=
| Pending
| Resolved (value : Session.t)
| Rejected (reason : Err).

#[global] Instance Promise_eq_dec : EqDecision Promise.
Proof. solve_decision. Defined.

(** ** Observable actions *)

Inductive Level := info | warn | error_.

(** One constructor per logging statement of the file. *)
Inductive LogMsg :=
| ErrorDestroyingClient (e : Err)
| InitializationAttemptFailed (attempt : Z) (intervalMs : Z)
| AttemptingToReconnect (sessionName : string)
| ReconnectionFailed (e : Err)
| SessionColon (sessionName : string)
| SessionAuthenticated (sessionName : string)
| AuthenticationFailure (sessionName : string) (msg : string)
| SessionDisconnected (sessionName : string) (reason : string)
| SessionReady (sessionName : string)
| InitializationFailed (e : Err)
| Caught (e : Err).

(** The only function ever handed to [setTimeout] as a callback is the
    closure's [reconnect]. *)
Inductive Callback := reconnectCb (client : nat).

Inductive Effect :=
| Log (lvl : Level) (msg : LogMsg)
| QrGenerate (qr : string)
| IoEmit (event : string) (action : string) (session : Whatsapp.t)
| SetTimeout (cb : Callback) (ms : Z)
| Wait (ms : Z)
| NewClient (client : nat) (whatsappId : Z)
| ClientInitialize (client : nat)
| ClientDestroy (client : nat)
| SendPresenceAvailable (client : nat)
| GetChats (client : nat)
| FetchMessages (chat : Chat) (limit : Z)
| HandleMessage (msg : Message) (client : nat)
| SendSeen (chat : Chat).

#[global] Instance Level_eq_dec : EqDecision Level.
Proof. solve_decision. Defined.
#[global] Instance LogMsg_eq_dec : EqDecision LogMsg.
Proof. solve_decision. Defined.
#[global] Instance Callback_eq_dec : EqDecision Callback.
Proof. solve_decision. Defined.
#[global] Instance Effect_eq_dec : EqDecision Effect.
Proof. solve_decision. Defined.

(** The events of the engine client the program listens to. *)
Inductive Event :=
| qr (code : string)
| authenticated
| auth_failure (msg : string)
| disconnected (reason : string)
| ready.

(** ** The world *)

(** [sessions] is the module-level array.  [whatsapp], [sessionName],
    [wbot] and [promise] are what one call of [initWbot] closes over.  [tick]
    counts the calls made to collaborators so far, so that their answers
    may change over time. *)
Record World := mkWorld {
  sessions : list Session.t;
  whatsapp : Whatsapp.t;
  sessionName : string;
  wbot : Session.t;
  promise : Promise;
  trace : list Effect;
  tick : nat;
  next_client : nat
}.

(** What the collaborators answer.  [None] stands for a call that
    returns normally, [Some e] for one that throws or rejects with [e].
    [new_Client_throws] is the answer of the constructors in
    [new Client({ ..., authStrategy: new LocalAuth({ clientId: 'bd_' +
    whatsapp.id }), ... })], which may refuse their options. *)
Record Env := mkEnv {
  getIO_throws : option Err;
  JSON_parse_throws : string -> option Err;
  initialize_throws : nat -> nat -> option Err;
  destroy_throws : nat -> nat -> option Err;
  getChats_result : nat -> nat -> Err + list Chat;
  fetchMessages_result : Chat -> Z -> nat -> Err + list Message;
  handleMessage_throws : Message -> nat -> option Err;
  sendSeen_throws : Chat -> nat -> option Err;
  new_Client_throws : Z -> option Err
}.

(** ** A state and exception monad *)

Inductive Res (A : Type) :=
| Ok (a : A)
| Throw (e : Err).
Arguments Ok {A} a.
Arguments Throw {A} e.

Definition M (A : Type) : Type := World -> Res A * World.

Definition ret {A} (a : A) : M A := fun w => (Ok a, w).

Definition bind {A B} (m : M A) (k : A -> M B) : M B :=
  fun w => match m w with
           | (Ok a, w') => k a w'
           | (Throw e, w') => (Throw e, w')
           end.

Definition throw {A} (e : Err) : M A := fun w => (Throw e, w).

(** [try { m } catch (e) { h e }]: what [m] wrote before throwing stays
    written. *)
Definition try_catch {A} (m : M A) (h : Err -> M A) : M A :=
  fun w => match m w with
           | (Ok a, w') => (Ok a, w')
           | (Throw e, w') => h e w'
           end.

Definition get : M World := fun w => (Ok w, w).

Definition modify (f : World -> World) : M unit := fun w => (Ok tt, f w).

Declare Scope wbot_scope.
Delimit Scope wbot_scope with wbot.
Notation "x <- m ;; k" := (bind m (fun x => k))
  (at level 100, m at next level, right associativity) : wbot_scope.
Notation "m ;; k" := (bind m (fun _ => k))
  (at level 100, right associativity) : wbot_scope.
Local Open Scope wbot_scope.

(** ** Primitive actions *)

Definition set_sessions (l : list Session.t) (w : World) : World :=
  mkWorld l (whatsapp w) (sessionName w) (wbot w) (promise w) (trace w) (tick w)
          (next_client w).
Definition set_whatsapp (a : Whatsapp.t) (w : World) : World :=
  mkWorld (sessions w) a (sessionName w) (wbot w) (promise w) (trace w) (tick w)
          (next_client w).
Definition set_sessionName (n : string) (w : World) : World :=
  mkWorld (sessions w) (whatsapp w) n (wbot w) (promise w) (trace w) (tick w)
          (next_client w).
Definition set_wbot (s : Session.t) (w : World) : World :=
  mkWorld (sessions w) (whatsapp w) (sessionName w) s (promise w) (trace w) (tick w)
          (next_client w).
Definition set_promise (p : Promise) (w : World) : World :=
  mkWorld (sessions w) (whatsapp w) (sessionName w) (wbot w) p (trace w) (tick w)
          (next_client w).
Definition emit_effect (e : Effect) (w : World) : World :=
  mkWorld (sessions w) (whatsapp w) (sessionName w) (wbot w) (promise w)
          (trace w ++ [e]) (tick w) (next_client w).
Definition next_tick (w : World) : World :=
  mkWorld (sessions w) (whatsapp w) (sessionName w) (wbot w) (promise w) (trace w)
          (S (tick w)) (next_client w).
Definition bump_client (w : World) : World :=
  mkWorld (sessions w) (whatsapp w) (sessionName w) (wbot w) (promise w) (trace w)
          (tick w) (S (next_client w)).

Definition effect (e : Effect) : M unit := modify (emit_effect e).

Definition logger (lvl : Level) (msg : LogMsg) : M unit := effect (Log lvl msg).

(** A call to a collaborator that either returns or throws: the call is
    recorded, the answer is the environment's at the current tick. *)
Definition call (e : Effect) (answer : nat -> option Err) : M unit :=
  fun w => let w' := next_tick (emit_effect e w) in
           match answer (tick w) with
           | None => (Ok tt, w')
           | Some err => (Throw err, w')
           end.

Definition call_val {A} (e : Effect) (answer : nat -> Err + A) : M A :=
  fun w => let w' := next_tick (emit_effect e w) in
           match answer (tick w) with
           | inr a => (Ok a, w')
           | inl err => (Throw err, w')
           end.

(** The two halves of [await f()] for a call [f] as in [call]: making
    the call, which records it and fixes the answer, and, after the
    suspension, receiving the answer. *)
Definition call_begin (e : Effect) (answer : nat -> option Err) : M (option Err) :=
  fun w => (Ok (answer (tick w)), next_tick (emit_effect e w)).

Definition call_end (a : option Err) : M unit :=
  match a with
  | None => ret tt
  | Some err => throw err
  end.

(** [whatsapp.update({...})], one definition per set of fields the file
    passes. *)
Definition update_qr (qr : string) (a : Whatsapp.t) : Whatsapp.t :=
  Whatsapp.mk (Whatsapp.id a) (Whatsapp.name a) (Whatsapp.session a) "qrcode" qr 0.
Definition update_session_retries (s : string) (r : Z) (a : Whatsapp.t) : Whatsapp.t :=
  Whatsapp.mk (Whatsapp.id a) (Whatsapp.name a) s (Whatsapp.status a)
              (Whatsapp.qrcode a) r.
Definition update_status_retries (st : string) (r : Z) (a : Whatsapp.t) : Whatsapp.t :=
  Whatsapp.mk (Whatsapp.id a) (Whatsapp.name a) (Whatsapp.session a) st
              (Whatsapp.qrcode a) r.
Definition update_status_qrcode (st qr : string) (a : Whatsapp.t) : Whatsapp.t :=
  Whatsapp.mk (Whatsapp.id a) (Whatsapp.name a) (Whatsapp.session a) st qr
              (Whatsapp.retries a).
Definition update_status_qrcode_retries (st qr : string) (r : Z) (a : Whatsapp.t)
  : Whatsapp.t :=
  Whatsapp.mk (Whatsapp.id a) (Whatsapp.name a) (Whatsapp.session a) st qr r.

Definition update (f : Whatsapp.t -> Whatsapp.t) : M unit :=
  modify (fun w => set_whatsapp (f (whatsapp w)) w).

(** [io.emit("whatsappSession", { action: "update", session: whatsapp })]:
    the payload is the account as it is when the call is made. *)
Definition io_emit_update : M unit :=
  w <- get ;; effect (IoEmit "whatsappSession" "update" (whatsapp w)).

(** [resolve] and [reject] of the promise: a settled promise stays as it
    is. *)
Definition resolve (s : Session.t) : M unit :=
  modify (fun w => match promise w with
                   | Pending => set_promise (Resolved s) w
                   | _ => w
                   end).
Definition reject (e : Err) : M unit :=
  modify (fun w => match promise w with
                   | Pending => set_promise (Rejected e) w
                   | _ => w
                   end).

(** ** The registry *)

(** [sessions.findIndex(s => s.id === whatsappId)]: the first index
    whose session carries the identity, [-1] when there is none. *)
Definition findIndex (whatsappId : Z) (l : list Session.t) : Z :=
  match list_find (fun s => Session.id s = Some whatsappId) l with
  | Some (i, _) => Z.of_nat i
  | None => -1
  end.

(** [sessions[sessionIndex]]. *)
Definition at_index (l : list Session.t) (i : Z) : option Session.t :=
  if decide (i < 0) then None else l !! Z.to_nat i.

(** [sessions.splice(sessionIndex, 1)]: a negative index counts from the
    end of the array (and stops at its start), an index past the end
    removes nothing. *)
Definition splice1 (i : Z) (l : list Session.t) : list Session.t :=
  if decide (i < 0)
  then delete (Z.to_nat (Z.max (Z.of_nat (length l) + i) 0)) l
  else delete (Z.to_nat i) l.

Definition MAX_RETRIES : Z := 5.
Definition RECONNECT_INTERVAL : Z := 5000.

(** ** The program *)

(** [for (const x of l) { await body(x) }] *)
Fixpoint for_of {A} (l : list A) (body : A -> M unit) : M unit :=
  match l with
  | [] => ret tt
  | x :: rest => body x ;; for_of rest body
  end.

Section Program.
Context (env : Env).

(** *** Calls into the engine *)

Definition client_destroy (s : Session.t) : M unit :=
  call (ClientDestroy (Session.client s)) (destroy_throws env (Session.client s)).

Definition client_initialize (s : Session.t) : M unit :=
  call (ClientInitialize (Session.client s))
       (initialize_throws env (Session.client s)).

Definition client_getChats (s : Session.t) : M (list Chat) :=
  call_val (GetChats (Session.client s)) (getChats_result env (Session.client s)).

Definition chat_fetchMessages (chat : Chat) (limit : Z) : M (list Message) :=
  call_val (FetchMessages chat limit) (fetchMessages_result env chat limit).

Definition handleMessage (msg : Message) (s : Session.t) : M unit :=
  call (HandleMessage msg (Session.client s)) (handleMessage_throws env msg).

Definition chat_sendSeen (chat : Chat) : M unit :=
  call (SendSeen chat) (sendSeen_throws env chat).

(** *** [destroyClient] *)

Definition destroyClient (wbot : Session.t) : M unit :=
  try_catch (client_destroy wbot)
            (fun err => logger error_ (ErrorDestroyingClient err)).

(** *** [initializeWithRetry]

    The source fixes the bound and the interval as the constants
    [MAX_RETRIES] and [RECONNECT_INTERVAL]; they are parameters here so
    that the function can be studied for every bound.  The argument
    [whatsapp] is not used by the source either. *)

Equations? initializeWithRetry_gen (maxRetries intervalMs : Z) (wbot : Session.t)
    (whatsapp : Whatsapp.t) (retries : Z) : M unit
    by wf (Z.to_nat (maxRetries - retries)) lt :=
  initializeWithRetry_gen maxRetries intervalMs wbot whatsapp retries :=
    try_catch (client_initialize wbot)
      (fun err =>
         match Z_lt_dec retries maxRetries with
         | left _ =>
             logger warn (InitializationAttemptFailed (retries + 1) intervalMs) ;;
             effect (Wait intervalMs) ;;
             initializeWithRetry_gen maxRetries intervalMs wbot whatsapp (retries + 1)
         | right _ => throw err
         end).
Proof. lia. Qed.

Definition initializeWithRetry (wbot : Session.t) (whatsapp : Whatsapp.t)
    (retries : Z) : M unit :=
  initializeWithRetry_gen MAX_RETRIES RECONNECT_INTERVAL wbot whatsapp retries.

(** *** [syncUnreadMessages] *)

Definition syncUnreadMessages (wbot : Session.t) : M unit :=
  chats <- client_getChats wbot ;;
  for_of chats (fun chat =>
    if decide (unreadCount chat > 0) then
      unreadMessages <- chat_fetchMessages chat (unreadCount chat) ;;
      for_of unreadMessages (fun msg => handleMessage msg wbot) ;;
      chat_sendSeen chat
    else ret tt).

(** *** The closure of [initWbot] *)

Definition reconnect : M unit :=
  try_catch
    (w <- get ;;
     logger info (AttemptingToReconnect (sessionName w)) ;;
     destroyClient (wbot w) ;;
     initializeWithRetry (wbot w) (whatsapp w) 0)
    (fun err =>
       logger error_ (ReconnectionFailed err) ;;
       update (update_status_qrcode "DISCONNECTED" "") ;;
       io_emit_update).

(** Lines 111-115 and 180-184 of the source, the same text in the [qr]
    and in the [ready] handler. *)
Definition registerIfAbsent : M unit :=
  w <- get ;;
  let sessionIndex := findIndex (Whatsapp.id (whatsapp w)) (sessions w) in
  if decide (sessionIndex = -1) then
    modify (fun w => set_wbot (Session.mk (Session.client (wbot w))
                                          (Some (Whatsapp.id (whatsapp w)))) w) ;;
    modify (fun w => set_sessions (sessions w ++ [wbot w]) w)
  else ret tt.

Definition on_qr (qr : string) : M unit :=
  w <- get ;;
  logger info (SessionColon (sessionName w)) ;;
  effect (QrGenerate qr) ;;
  update (update_qr qr) ;;
  registerIfAbsent ;;
  io_emit_update.

Definition on_authenticated : M unit :=
  w <- get ;;
  logger info (SessionAuthenticated (sessionName w)).

Definition on_auth_failure (msg : string) : M unit :=
  w <- get ;;
  logger error_ (AuthenticationFailure (sessionName w) msg) ;;
  (if decide (Whatsapp.retries (whatsapp w) > 1)
   then update (update_session_retries "" 0)
   else ret tt) ;;
  w <- get ;;
  let retry := Whatsapp.retries (whatsapp w) in
  update (update_status_retries "DISCONNECTED" (retry + 1)) ;;
  io_emit_update ;;
  effect (SetTimeout (reconnectCb (Session.client (wbot w))) RECONNECT_INTERVAL).

Definition on_disconnected (reason : string) : M unit :=
  w <- get ;;
  logger warn (SessionDisconnected (sessionName w) reason) ;;
  update (update_status_qrcode "DISCONNECTED" "") ;;
  io_emit_update ;;
  effect (SetTimeout (reconnectCb (Session.client (wbot w))) RECONNECT_INTERVAL).

Definition on_ready : M unit :=
  w <- get ;;
  logger info (SessionReady (sessionName w)) ;;
  update (update_status_qrcode_retries "CONNECTED" "" 0) ;;
  io_emit_update ;;
  registerIfAbsent ;;
  w <- get ;;
  effect (SendPresenceAvailable (Session.client (wbot w))) ;;
  syncUnreadMessages (wbot w) ;;
  resolve (wbot w).

(** [new Client({...})]: when the constructors accept their options, a
    client object that did not exist before, with no [id] yet; when
    they refuse, the exception they throw and no client. *)
Definition new_Client (whatsappId : Z) : M Session.t :=
  match new_Client_throws env whatsappId with
  | Some err => throw err
  | None =>
      w <- get ;;
      let c := next_client w in
      modify bump_client ;;
      effect (NewClient c whatsappId) ;;
      ret (Session.mk c None)
  end.

Definition getIO : M unit :=
  match getIO_throws env with
  | None => ret tt
  | Some err => throw err
  end.

Definition JSON_parse (s : string) : M unit :=
  match JSON_parse_throws env s with
  | None => ret tt
  | Some err => throw err
  end.

(** *** [initWbot]

    The executor of the promise.  The handlers it installs are
    [on_qr] ... [on_ready] above; they run when the engine emits. *)
Definition initWbot (whatsapp : Whatsapp.t) : M unit :=
  modify (set_promise Pending) ;;
  modify (set_whatsapp whatsapp) ;;
  try_catch
    (getIO ;;
     modify (set_sessionName (Whatsapp.name whatsapp)) ;;
     (if decide (Whatsapp.session whatsapp = "")
      then ret tt
      else JSON_parse (Whatsapp.session whatsapp)) ;;
     wbot <- new_Client (Whatsapp.id whatsapp) ;;
     modify (set_wbot wbot) ;;
     try_catch (initializeWithRetry wbot whatsapp 0)
               (fun err =>
                  logger error_ (InitializationFailed err) ;;
                  reject err))
    (fun err =>
       logger error_ (Caught err) ;;
       reject err).

(** *** [getWbot] and [removeWbot] *)

Definition getWbot (whatsappId : Z) : M (option Session.t) :=
  w <- get ;;
  let sessionIndex := findIndex whatsappId (sessions w) in
  if decide (sessionIndex = -1) then
    throw (AppError "ERR_WAPP_NOT_INITIALIZED")
  else ret (at_index (sessions w) sessionIndex).

(** [removeWbot] awaits [destroyClient] between reading the index
    (line 215) and splicing at it (line 218), and [destroyClient] awaits
    [wbot.destroy()] inside its [try].  Other listeners and calls may
    run during the suspension, so the function is given in the two
    stretches that run without interruption: up to the suspension, and
    from the resumption on. *)
Definition destroyClient_start (wbot : Session.t) : M (option Err) :=
  call_begin (ClientDestroy (Session.client wbot))
             (destroy_throws env (Session.client wbot)).

Definition destroyClient_resume (a : option Err) : M unit :=
  try_catch (call_end a)
            (fun err => logger error_ (ErrorDestroyingClient err)).

Definition removeWbot_start (whatsappId : Z) : M (option Removal) :=
  try_catch
    (w <- get ;;
     let sessionIndex := findIndex whatsappId (sessions w) in
     if decide (sessionIndex <> -1) then
       match at_index (sessions w) sessionIndex with
       | Some s =>
           a <- destroyClient_start s ;;
           ret (Some (mkRemoval sessionIndex a))
       | None => ret (Some (mkRemoval sessionIndex (Some (External "TypeError"))))
       end
     else ret None)
    (fun err => logger error_ (Caught err) ;; ret None).

Definition removeWbot_resume (p : Removal) : M unit :=
  try_catch
    (destroyClient_resume (destroy_answer p) ;;
     modify (fun w => set_sessions (splice1 (found_at p) (sessions w)) w))
    (fun err => logger error_ (Caught err)).

(** A call of [removeWbot] during whose suspension nothing else runs. *)
Definition removeWbot (whatsappId : Z) : M unit :=
  r <- removeWbot_start whatsappId ;;
  match r with
  | Some p => removeWbot_resume p
  | None => ret tt
  end.

(** *** Events and timers *)

Definition handler (ev : Event) : M unit :=
  match ev with
  | qr code => on_qr code
  | authenticated => on_authenticated
  | auth_failure msg => on_auth_failure msg
  | disconnected reason => on_disconnected reason
  | ready => on_ready
  end.

(** The emitter drops what a listener returns: a listener that fails
    leaves the world as it was when it failed. *)
Definition emit (ev : Event) (w : World) : World := snd (handler ev w).

Definition emit_all (evs : list Event) (w : World) : World :=
  foldl (fun w ev => emit ev w) w evs.

(** A timer set by [setTimeout(reconnect, ...)] comes due. *)
Definition fire (cb : Callback) (w : World) : World :=
  match cb with
  | reconnectCb _ => snd (reconnect w)
  end.

(** Everything that can happen to the module: the engine emits, a timer
    comes due, or a caller uses one of the three exported functions.
    The promises returned to callers are dropped here; [getWbot] changes
    nothing and is left out.  A call of [removeWbot] is either taken
    whole, or in its two stretches with other steps in between; a
    resumed stretch carries what its call found when it started, and
    [run] does not check that such a call was started, which only adds
    runs. *)
Inductive Step :=
| emitted (ev : Event)
| timer_due (cb : Callback)
| initWbot_called (whatsapp : Whatsapp.t)
| removeWbot_called (whatsappId : Z)
| removeWbot_started (whatsappId : Z)
| removeWbot_resumed (p : Removal).

Definition step (s : Step) (w : World) : World :=
  match s with
  | emitted ev => emit ev w
  | timer_due cb => fire cb w
  | initWbot_called a => snd (initWbot a w)
  | removeWbot_called i => snd (removeWbot i w)
  | removeWbot_started i => snd (removeWbot_start i w)
  | removeWbot_resumed p => snd (removeWbot_resume p w)
  end.

Definition run (steps : list Step) (w : World) : World :=
  foldl (fun w s => step s w) w steps.

End Program.

(** ** Reading traces *)

Definition is_attempt (e : Effect) : bool :=
  match e with ClientInitialize _ => true | _ => false end.
Definition is_wait (ms : Z) (e : Effect) : bool :=
  match e with Wait ms' => bool_decide (ms' = ms) | _ => false end.
Definition is_notification (e : Effect) : bool :=
  match e with IoEmit _ _ _ => true | _ => false end.
Definition is_timer (e : Effect) : bool :=
  match e with SetTimeout _ _ => true | _ => false end.
Definition is_construction (e : Effect) : bool :=
  match e with NewClient _ _ => true | _ => false end.

Definition count (p : Effect -> bool) (t : list Effect) : nat :=
  length (List.filter p t).

(** The clients on which [initialize], respectively [destroy], was
    called, in order. *)
Definition connected_on (t : list Effect) : list nat :=
  omap (fun e => match e with ClientInitialize c => Some c | _ => None end) t.
Definition destroyed_on (t : list Effect) : list nat :=
  omap (fun e => match e with ClientDestroy c => Some c | _ => None end) t.

(** How often an identity occurs in the registry. *)
Definition registered (whatsappId : Z) (l : list Session.t) : nat :=
  length (filter (fun s => Session.id s = Some whatsappId) l).

(** What a bounded connect sequence leaves in the trace when each of
    its attempts fails: [n] failed attempts that are retried, then the
    last one. *)
Fixpoint failed_attempts (c : nat) (intervalMs : Z) (n : nat) (retries : Z)
  : list Effect :=
  match n with
  | O => [ClientInitialize c]
  | S n' =>
      ClientInitialize c
        :: Log warn (InitializationAttemptFailed (retries + 1) intervalMs)
        :: Wait intervalMs
        :: failed_attempts c intervalMs n' (retries + 1)
  end.

(** ** Reading worlds and traces in the statements below *)

(** The world after [k] calls to collaborators that left [t] in the
    trace and changed nothing else. *)
Definition after_calls (w : World) (t : list Effect) (k : nat) : World :=
  mkWorld (sessions w) (whatsapp w) (sessionName w) (wbot w) (promise w)
          (trace w ++ t) (tick w + k) (next_client w).

(** Attempts and suspensions of a trace, in order. *)
Definition attempts_and_waits (t : list Effect) : list Effect :=
  List.filter (fun e => match e with
                        | ClientInitialize _ | Wait _ => true
                        | _ => false
                        end) t.

(** [keeps_registry m]: whatever [m] returns, the registry is as it
    was. *)
Definition keeps_registry {A} (m : M A) : Prop :=
  forall w, sessions (snd (m w)) = sessions w.

(** [framed P m]: whatever [m] returns, it changed the trace by
    appending effects that satisfy [P], advanced the call counter, and
    touched nothing else. *)
Definition framed {A} (P : Effect -> Prop) (m : M A) : Prop :=
  forall w, exists t k, snd (m w) = after_calls w t k /\ Forall P t.

(** The effects of the unread-history sync. *)
Definition sync_effect (e : Effect) : Prop :=
  match e with
  | GetChats _ | FetchMessages _ _ | HandleMessage _ _ | SendSeen _ => True
  | _ => False
  end.

(** The effects of a connect sequence on client [c]. *)
Definition connect_effect (c : nat) (e : Effect) : Prop :=
  match e with
  | ClientInitialize c' => c' = c
  | Log warn (InitializationAttemptFailed _ _) => True
  | Wait _ => True
  | _ => False
  end.

(** What [destroyClient] leaves in the trace when called at tick [tk]. *)
Definition destroyClient_trace (env : Env) (s : Session.t) (tk : nat) : list Effect :=
  ClientDestroy (Session.client s) ::
  match destroy_throws env (Session.client s) tk with
  | None => []
  | Some e => [Log error_ (ErrorDestroyingClient e)]
  end.

(** The world after the [catch] block of [reconnect]. *)
Definition reconnect_failed (e : Err) (w : World) : World :=
  let a := update_status_qrcode "DISCONNECTED" "" (whatsapp w) in
  emit_effect (IoEmit "whatsappSession" "update" a)
    (set_whatsapp a (emit_effect (Log error_ (ReconnectionFailed e)) w)).

Definition disconnects (ev : Event) : bool :=
  match ev with
  | auth_failure _ | disconnected _ => true
  | _ => false
  end.

(** Lines 180-184 as a function on worlds. *)
Definition register_world (w : World) : World :=
  let whatsappId := Whatsapp.id (whatsapp w) in
  let s := Session.mk (Session.client (wbot w)) (Some whatsappId) in
  if decide (findIndex whatsappId (sessions w) = -1)
  then set_sessions (sessions w ++ [s]) (set_wbot s w)
  else w.

(** The world in which the [ready] handler starts the unread-history
    sync. *)
Definition ready_before_sync (w : World) : World :=
  let a := update_status_qrcode_retries "CONNECTED" "" 0 (whatsapp w) in
  let w0 := emit_effect (Log info (SessionReady (sessionName w))) w in
  let w1 := emit_effect (IoEmit "whatsappSession" "update" a) (set_whatsapp a w0) in
  let w2 := register_world w1 in
  emit_effect (SendPresenceAvailable (Session.client (wbot w2))) w2.

Definition registers (ev : Event) : bool :=
  match ev with
  | qr _ | ready => true
  | _ => false
  end.

(** The registry after lines 111-115 (or 180-184) ran for an account
    [whatsappId] and a client [c]. *)
Definition register (whatsappId : Z) (c : nat) (l : list Session.t) : list Session.t :=
  if decide (findIndex whatsappId l = -1)
  then l ++ [Session.mk c (Some whatsappId)]
  else l.

(** ** Further readers of registries and traces *)

(** The session [getWbot] finds for an identity: the first one in the
    registry that carries it. *)
Definition lookup_session (whatsappId : Z) (l : list Session.t) : option Session.t :=
  snd <$> list_find (fun s => Session.id s = Some whatsappId) l.

(** The conversations with something unread, in enumeration order. *)
Definition unread (chats : list Chat) : list Chat :=
  filter (fun chat => unreadCount chat > 0) chats.

(** The conversations marked seen, the fetches with their limits and
    the messages handed to the message pipeline, in order. *)
Definition seen_chats (t : list Effect) : list Chat :=
  omap (fun e => match e with SendSeen chat => Some chat | _ => None end) t.
Definition fetches (t : list Effect) : list (Chat * Z) :=
  omap (fun e => match e with
                 | FetchMessages chat limit => Some (chat, limit)
                 | _ => None
                 end) t.
Definition handled (t : list Effect) : list Message :=
  omap (fun e => match e with HandleMessage msg _ => Some msg | _ => None end) t.

(** The status notifications of a trace. *)
Definition notifications (t : list Effect) : list Effect :=
  List.filter is_notification t.

(** The error, if any, with which the environment answers the call
    recorded as [e] when it is made at tick [tk]. *)
Definition answer (env : Env) (e : Effect) (tk : nat) : option Err :=
  match e with
  | ClientInitialize c => initialize_throws env c tk
  | ClientDestroy c => destroy_throws env c tk
  | GetChats c =>
      match getChats_result env c tk with inl err => Some err | inr _ => None end
  | FetchMessages chat limit =>
      match fetchMessages_result env chat limit tk with
      | inl err => Some err
      | inr _ => None
      end
  | HandleMessage msg _ => handleMessage_throws env msg tk
  | SendSeen chat => sendSeen_throws env chat tk
  | _ => None
  end.

(** Every call of [t], the first of which is made at tick [tk],
    returned normally. *)
Fixpoint all_returned (env : Env) (tk : nat) (t : list Effect) : Prop :=
  match t with
  | [] => True
  | e :: t' => answer env e tk = None /\ all_returned env (S tk) t'
  end.

(** How a run of calls that started at tick [tk] and left [t] in the
    trace relates to its result: either all calls returned, or all but
    the last did and the error is the one the last call was answered
    with. *)
Definition outcome {A} (env : Env) (tk : nat) (t : list Effect) (r : Res A) : Prop :=
  match r with
  | Ok _ => all_returned env tk t
  | Throw err =>
      exists t0 f, t = t0 ++ [f] /\ all_returned env tk t0 /\
                   answer env f (tk + length t0) = Some err
  end.

(** [calls_only env m]: [m] does nothing but call collaborators, one
    tick per recorded effect, stops at the first call that fails and
    fails with its error. *)
Definition calls_only {A} (env : Env) (m : M A) : Prop :=
  forall w, exists t,
    snd (m w) = after_calls w t (length t) /\ outcome env (tick w) t (fst (m w)).

(** The body of the outer loop of [syncUnreadMessages] (lines 44-54),
    for reference in the statements about the loop. *)
Definition sync_chat (env : Env) (wbot : Session.t) (chat : Chat) : M unit :=
  if decide (unreadCount chat > 0) then
    unreadMessages <- chat_fetchMessages env chat (unreadCount chat) ;;
    for_of unreadMessages (fun msg => handleMessage env msg wbot) ;;
    chat_sendSeen env chat
  else ret tt.

(** The effects of the inner loop of [syncUnreadMessages]. *)
Definition handle_effect (e : Effect) : Prop :=
  match e with HandleMessage _ _ => True | _ => False end.

Definition is_initWbot_called (s : Step) : bool :=
  match s with initWbot_called _ => true | _ => false end.
(** The steps in which [removeWbot] writes to the registry. *)
Definition is_removeWbot_called (s : Step) : bool :=
  match s with
  | removeWbot_called _ | removeWbot_resumed _ => true
  | _ => false
  end.

(** ** Sample accounts, worlds and environments *)

Definition sample_account : Whatsapp.t :=
  Whatsapp.mk 7 "main" "" "OPENING" "" 0.

(** A world in which nothing happened yet: the closure of a call of
    [initWbot] for [sample_account] around client [0]. *)
Definition sample_world : World :=
  mkWorld [] sample_account "main" (Session.mk 0 None) Pending [] 0 1.

Definition sample_registry : list Session.t :=
  [Session.mk 4 (Some 3); Session.mk 0 (Some 7)].

(** Environments to run the program in: one in which every collaborator
    answers well and there is nothing unread, one in which the engine
    refuses every [initialize] and every [destroy]. *)
Definition calm_env : Env :=
  mkEnv None (fun _ => None) (fun _ _ => None) (fun _ _ => None)
        (fun _ _ => inr []) (fun _ _ _ => inr []) (fun _ _ => None) (fun _ _ => None) (fun _ => None).

Definition broken_env : Env :=
  mkEnv None (fun _ => None)
        (fun _ _ => Some (External "boom")) (fun _ _ => Some (External "gone"))
        (fun _ _ => inr []) (fun _ _ _ => inr []) (fun _ _ => None) (fun _ _ => None) (fun _ => None).

(** An environment whose [getChats] fails during the first four calls
    to collaborators and answers afterwards. *)
Definition flaky_env : Env :=
  mkEnv None (fun _ => None) (fun _ _ => None) (fun _ _ => None)
        (fun _ t => if (t <? 4)%nat then inl (External "chats") else inr [])
        (fun _ _ _ => inr []) (fun _ _ => None) (fun _ _ => None) (fun _ => None).

(** An engine that refuses the first two calls made to it. *)
Definition slow_env : Env :=
  mkEnv None (fun _ => None)
        (fun _ t => if (t <? 2)%nat then Some (External "later") else None)
        (fun _ _ => None)
        (fun _ _ => inr []) (fun _ _ _ => inr []) (fun _ _ => None) (fun _ _ => None) (fun _ => None).

(** The module before any call: an empty registry and no closure yet
    (the closure fields are placeholders that [initWbot] overwrites). *)
Definition blank_world : World :=
  mkWorld [] (Whatsapp.mk 0 "" "" "" "" 0) "" (Session.mk 0 None) Pending [] 0 0.

(** Runs the straight-line part of a handler: everything in it is a
    write to the world, none of it can throw. *)
Ltac straight_line :=
  unfold bind, get, logger, effect, update, io_emit_update, modify; simpl.

(** ** The scenarios of the specification, run

    An account without credentials is initialised, the engine emits
    [qr] and then [ready]. *)
Example scenario_qr_then_ready :
  let w0 := snd (initWbot calm_env sample_account blank_world) in
  let w1 := emit calm_env (qr "XYZ") w0 in
  let w2 := emit calm_env ready w1 in
  (Whatsapp.status (whatsapp w1), Whatsapp.qrcode (whatsapp w1)) = ("qrcode", "XYZ") /\
  sessions w1 = [Session.mk 0 (Some 7)] /\
  promise w1 = Pending /\
  Whatsapp.status (whatsapp w2) = "CONNECTED" /\
  sessions w2 = [Session.mk 0 (Some 7)] /\
  promise w2 = Resolved (Session.mk 0 (Some 7)) /\
  trace w2 = [NewClient 0 7; ClientInitialize 0;
              Log info (SessionColon "main"); QrGenerate "XYZ";
              IoEmit "whatsappSession" "update"
                (Whatsapp.mk 7 "main" "" "qrcode" "XYZ" 0);
              Log info (SessionReady "main");
              IoEmit "whatsappSession" "update"
                (Whatsapp.mk 7 "main" "" "CONNECTED" "" 0);
              SendPresenceAvailable 0; GetChats 0].
Proof. vm_compute. done. Qed.

(** A connected session is disconnected; the timer comes due. *)
Example scenario_disconnected :
  let w0 := emit calm_env ready (snd (initWbot calm_env sample_account blank_world)) in
  let w1 := emit calm_env (disconnected "NAVIGATION") w0 in
  let w2 := fire calm_env (reconnectCb 0) w1 in
  whatsapp w1 = Whatsapp.mk 7 "main" "" "DISCONNECTED" "" 0 /\
  drop (length (trace w0)) (trace w2)
    = [Log warn (SessionDisconnected "main" "NAVIGATION");
       IoEmit "whatsappSession" "update" (Whatsapp.mk 7 "main" "" "DISCONNECTED" "" 0);
       SetTimeout (reconnectCb 0) 5000;
       Log info (AttemptingToReconnect "main");
       ClientDestroy 0; ClientInitialize 0].
Proof. vm_compute. done. Qed.

(** The initial connect sequence fails throughout: the promise is
    rejected with the last error. *)
Example scenario_initial_connect_fails :
  let w0 := snd (initWbot broken_env sample_account blank_world) in
  promise w0 = Rejected (External "boom") /\
  count is_attempt (trace w0) = 6%nat /\
  count (is_wait 5000) (trace w0) = 5%nat /\
  sessions w0 = [].
Proof. vm_compute. done. Qed.

(** ** The registry: [findIndex] *)

Lemma findIndex_absent (i : Z) (l : list Session.t) :
  findIndex i l = -1 <-> Forall (fun s => Session.id s <> Some i) l.
Proof.
  unfold findIndex.
  destruct (list_find _ l) as [[k s]|] eqn:E.
  - split; [lia|]. intros H.
    apply (list_find_None (fun s => Session.id s = Some i)) in H. congruence.
  - split; [|done]. intros _.
    by apply (list_find_None (fun s => Session.id s = Some i)).
Qed.

Lemma findIndex_present (i : Z) (l : list Session.t) :
  findIndex i l <> -1 ->
  exists (k : nat) (s : Session.t),
    findIndex i l = Z.of_nat k /\ l !! k = Some s /\ Session.id s = Some i /\
    at_index l (findIndex i l) = Some s /\
    forall j s', l !! j = Some s' -> (j < k)%nat -> Session.id s' <> Some i.
Proof.
  unfold findIndex. destruct (list_find _ l) as [[k s]|] eqn:E; [|done].
  intros _. apply list_find_Some in E as (Hk & Hs & Hmin).
  exists k, s. unfold at_index. rewrite decide_False by lia.
  rewrite Nat2Z.id. eauto 10.
Qed.

Lemma findIndex_elem (i : Z) (l : list Session.t) (s : Session.t) :
  s ∈ l -> Session.id s = Some i -> findIndex i l <> -1.
Proof.
  intros Hin Hid Habs. apply findIndex_absent in Habs.
  rewrite Forall_forall in Habs. by apply (Habs s).
Qed.

Lemma registered_absent (i : Z) (l : list Session.t) :
  findIndex i l = -1 -> registered i l = 0%nat.
Proof.
  rewrite findIndex_absent. unfold registered. induction 1 as [|s l Hs _ IH]; [done|].
  rewrite filter_cons_False by done. exact IH.
Qed.

Lemma registered_present (i : Z) (l : list Session.t) :
  findIndex i l <> -1 -> (0 < registered i l)%nat.
Proof.
  intros (k & s & _ & Hk & Hs & _)%findIndex_present.
  apply list_elem_of_lookup_2 in Hk. unfold registered.
  assert (s ∈ filter (fun s => Session.id s = Some i) l) as Hin
    by (apply list_elem_of_filter; done).
  destruct (filter _ l); [by apply elem_of_nil in Hin | simpl; lia].
Qed.

Lemma registered_app (i : Z) (l l' : list Session.t) :
  registered i (l ++ l') = (registered i l + registered i l')%nat.
Proof. unfold registered. by rewrite filter_app, length_app. Qed.

(** ** Lookup and removal *)

(** C7.  [getWbot] on an identity that no registered session carries
    throws the application error [ERR_WAPP_NOT_INITIALIZED] and changes
    nothing; on an identity that is registered it returns a session of
    the registry that carries this identity. *)
Theorem getWbot_lookup (whatsappId : Z) (w : World) :
  (Forall (fun s => Session.id s <> Some whatsappId) (sessions w) ->
   getWbot whatsappId w = (Throw (AppError "ERR_WAPP_NOT_INITIALIZED"), w)) /\
  (Exists (fun s => Session.id s = Some whatsappId) (sessions w) ->
   exists s, getWbot whatsappId w = (Ok (Some s), w) /\
             s ∈ sessions w /\ Session.id s = Some whatsappId).
Proof.
  unfold getWbot, bind, get. split.
  - intros H%findIndex_absent. by rewrite decide_True.
  - intros (s0 & Hin & Hid)%Exists_exists.
    pose proof (findIndex_elem _ _ _ Hin Hid) as Hne.
    destruct (findIndex_present _ _ Hne) as (k & s & _ & Hk & Hs & Hat & _).
    exists s. rewrite decide_False by done. unfold ret. rewrite Hat.
    eauto using list_elem_of_lookup_2.
Qed.

Lemma getWbot_lookup_witness :
  getWbot 5 (set_sessions sample_registry sample_world)
    = (Throw (AppError "ERR_WAPP_NOT_INITIALIZED"),
       set_sessions sample_registry sample_world) /\
  exists s, getWbot 7 (set_sessions sample_registry sample_world)
              = (Ok (Some s), set_sessions sample_registry sample_world) /\
            s ∈ sample_registry /\ Session.id s = Some 7.
Proof.
  split.
  - apply (proj1 (getWbot_lookup 5 (set_sessions sample_registry sample_world))).
    simpl. repeat constructor; discriminate.
  - apply (proj2 (getWbot_lookup 7 (set_sessions sample_registry sample_world))).
    simpl. apply Exists_cons_tl, Exists_cons_hd. reflexivity.
Defined.

Lemma registered_delete (i : Z) (l : list Session.t) (k : nat) (s : Session.t) :
  l !! k = Some s -> Session.id s = Some i ->
  registered i (delete k l) = pred (registered i l).
Proof.
  intros Hk Hs. rewrite delete_take_drop.
  rewrite <- (take_drop_middle l k s Hk) at 3.
  rewrite !registered_app.
  assert (registered i (s :: drop (S k) l) = S (registered i (drop (S k) l))) as ->
    by (unfold registered; by rewrite filter_cons_True).
  lia.
Qed.

Lemma destroyClient_run (env : Env) (s : Session.t) (w : World) :
  destroyClient env s w =
  (Ok tt,
   let w' := next_tick (emit_effect (ClientDestroy (Session.client s)) w) in
   match destroy_throws env (Session.client s) (tick w) with
   | None => w'
   | Some e => emit_effect (Log error_ (ErrorDestroyingClient e)) w'
   end).
Proof.
  unfold destroyClient, try_catch, client_destroy, call.
  by destruct (destroy_throws env _ _).
Qed.

Lemma destroyClient_split (env : Env) (s : Session.t) (w : World) :
  destroyClient env s w
  = bind (destroyClient_start env s) destroyClient_resume w.
Proof.
  unfold destroyClient, destroyClient_start, destroyClient_resume, try_catch, bind,
    client_destroy, call, call_begin, call_end.
  by destruct (destroy_throws env _ _).
Qed.

Lemma splice1_found (k : nat) (l : list Session.t) :
  splice1 (Z.of_nat k) l = delete k l.
Proof. unfold splice1. rewrite decide_False by lia. by rewrite Nat2Z.id. Qed.

Lemma removeWbot_start_absent (env : Env) (i : Z) (w : World) :
  findIndex i (sessions w) = -1 -> removeWbot_start env i w = (Ok None, w).
Proof.
  intros Habs. unfold removeWbot_start, try_catch, bind, get.
  by rewrite decide_False by (intros H; by apply H).
Qed.

Lemma removeWbot_start_found (env : Env) (i : Z) (w : World) :
  findIndex i (sessions w) <> -1 ->
  exists (k : nat) (s : Session.t),
    findIndex i (sessions w) = Z.of_nat k /\
    sessions w !! k = Some s /\ Session.id s = Some i /\
    (forall j s', sessions w !! j = Some s' -> (j < k)%nat ->
                  Session.id s' <> Some i) /\
    removeWbot_start env i w
    = (Ok (Some (mkRemoval (Z.of_nat k)
                           (destroy_throws env (Session.client s) (tick w)))),
       after_calls w [ClientDestroy (Session.client s)] 1).
Proof.
  intros Hne.
  destruct (findIndex_present _ _ Hne) as (k & s & Hidx & Hk & Hs & Hat & Hmin).
  exists k, s. split_and!; try done.
  unfold removeWbot_start, try_catch, bind, get.
  rewrite decide_True by done. rewrite Hat, Hidx.
  unfold destroyClient_start, call_begin, ret, after_calls, next_tick, emit_effect.
  simpl. do 3 f_equal. lia.
Qed.

Lemma removeWbot_resume_run (p : Removal) (w : World) :
  removeWbot_resume p w =
  (Ok tt,
   let w1 := match destroy_answer p with
             | None => w
             | Some e => emit_effect (Log error_ (ErrorDestroyingClient e)) w
             end in
   set_sessions (splice1 (found_at p) (sessions w1)) w1).
Proof.
  unfold removeWbot_resume, destroyClient_resume, try_catch, bind, call_end, modify.
  by destruct (destroy_answer p).
Qed.

(** The call that nothing interrupts never throws.  On an identity that
    is not registered it leaves the world as it is.  On a registered
    identity it destroys the first session carrying it and deletes that
    entry from the registry; when the destroy fails the error is logged
    and the entry is deleted all the same. *)
Lemma removeWbot_uninterrupted (env : Env) (whatsappId : Z) (w : World) :
  fst (removeWbot env whatsappId w) = Ok tt /\
  (Forall (fun s => Session.id s <> Some whatsappId) (sessions w) ->
   removeWbot env whatsappId w = (Ok tt, w)) /\
  (Exists (fun s => Session.id s = Some whatsappId) (sessions w) ->
   exists (k : nat) (s : Session.t),
     sessions w !! k = Some s /\ Session.id s = Some whatsappId /\
     (forall j s', sessions w !! j = Some s' -> (j < k)%nat ->
                   Session.id s' <> Some whatsappId) /\
     let w' := snd (removeWbot env whatsappId w) in
     sessions w' = delete k (sessions w) /\
     length (sessions w') = pred (length (sessions w)) /\
     registered whatsappId (sessions w') = pred (registered whatsappId (sessions w)) /\
     whatsapp w' = whatsapp w /\ promise w' = promise w /\
     trace w' = trace w ++ ClientDestroy (Session.client s) ::
                match destroy_throws env (Session.client s) (tick w) with
                | None => []
                | Some e => [Log error_ (ErrorDestroyingClient e)]
                end).
Proof.
  unfold removeWbot, bind.
  destruct (decide (findIndex whatsappId (sessions w) <> -1)) as [Hne|Heq].
  - destruct (removeWbot_start_found env _ _ Hne) as (k & s & Hidx & Hk & Hs & Hmin & ->).
    rewrite removeWbot_resume_run. cbn [fst snd found_at destroy_answer].
    split; [done|]. split.
    + intros Habs%findIndex_absent. done.
    + intros _. exists k, s. split_and!; try done.
      all: destruct (destroy_throws env _ _); simpl; rewrite ?splice1_found.
      all: rewrite <- ?app_assoc; try done.
      all: try (rewrite length_delete by eauto; lia).
      all: by apply (registered_delete _ _ _ s).
  - apply dec_stable in Heq. rewrite (removeWbot_start_absent env _ _ Heq).
    split; [done|]. split; [done|].
    intros (s0 & Hin & Hid)%Exists_exists.
    by destruct (findIndex_elem _ _ _ Hin Hid).
Qed.

(** C8.  Two calls of [removeWbot] that overlap.  The registry holds the
    identities 3, 7 and 9.  [removeWbot(3)] and [removeWbot(7)] both
    reach their [await], having found the indices 0 and 1; then both
    are resumed.  Neither call throws.  The first splice removes the
    entry of 3; the second, at an index that is now stale, removes the
    entry of 9: identity 7 is still registered and served by [getWbot],
    identity 9 is gone.  Run one after the other, the same two calls
    leave identity 9 alone. *)
Theorem removeWbot_overlap_stale_index :
  let w := set_sessions [Session.mk 0 (Some 3); Session.mk 1 (Some 7);
                         Session.mk 2 (Some 9)] sample_world in
  let p3 := mkRemoval 0 None in
  let p7 := mkRemoval 1 None in
  let w1 := snd (removeWbot_start calm_env 3 w) in
  let w2 := snd (removeWbot_start calm_env 7 w1) in
  let w3 := snd (removeWbot_resume p3 w2) in
  let w4 := snd (removeWbot_resume p7 w3) in
  removeWbot_start calm_env 3 w = (Ok (Some p3), w1) /\
  removeWbot_start calm_env 7 w1 = (Ok (Some p7), w2) /\
  fst (removeWbot_resume p3 w2) = Ok tt /\
  fst (removeWbot_resume p7 w3) = Ok tt /\
  sessions w4 = [Session.mk 1 (Some 7)] /\
  fst (getWbot 7 w4) = Ok (Some (Session.mk 1 (Some 7))) /\
  fst (getWbot 9 w4) = Throw (AppError "ERR_WAPP_NOT_INITIALIZED") /\
  w4 = run calm_env [removeWbot_started 3; removeWbot_started 7;
                     removeWbot_resumed p3; removeWbot_resumed p7] w /\
  sessions (run calm_env [removeWbot_called 3; removeWbot_called 7] w)
    = [Session.mk 2 (Some 9)].
Proof. vm_compute. by split_and!. Qed.

(** ** The handlers that do not call the engine *)

(** C3.  After the [auth_failure] handler the status is DISCONNECTED and
    the QR payload is as before.  When the prior retry counter was
    greater than 1 the stored credentials are cleared and the counter
    restarts from 0; otherwise both are kept.  The counter then ends one
    above that value. *)
Theorem auth_failure_transition (msg : string) (w : World) :
  let prior := Whatsapp.retries (whatsapp w) in
  let w' := snd (on_auth_failure msg w) in
  fst (on_auth_failure msg w) = Ok tt /\
  Whatsapp.status (whatsapp w') = "DISCONNECTED" /\
  Whatsapp.qrcode (whatsapp w') = Whatsapp.qrcode (whatsapp w) /\
  Whatsapp.session (whatsapp w')
    = (if decide (prior > 1) then "" else Whatsapp.session (whatsapp w)) /\
  Whatsapp.retries (whatsapp w') = (if decide (prior > 1) then 0 else prior) + 1.
Proof.
  unfold on_auth_failure. straight_line.
  by destruct (decide (Whatsapp.retries (whatsapp w) > 1)).
Qed.

(** The claim C5 asks for the status string ["QRCODE"]; the handler
    writes ["qrcode"]. *)
Lemma qr_status_uppercase_cex :
  Whatsapp.status (whatsapp (snd (on_qr "XYZ" sample_world))) <> "QRCODE".
Proof. vm_compute. discriminate. Qed.

(** C5, amended.  After the [qr] handler for payload [p] the status is
    the string ["qrcode"], the QR payload is [p] and the retry counter is
    0; the account's identity is registered, by appending the closure's
    client under that identity when the identity was absent and by
    leaving the registry alone otherwise; and the promise is as it
    was. *)
Theorem qr_transition (p : string) (w : World) :
  let whatsappId := Whatsapp.id (whatsapp w) in
  let w' := snd (on_qr p w) in
  fst (on_qr p w) = Ok tt /\
  Whatsapp.status (whatsapp w') = "qrcode" /\
  Whatsapp.qrcode (whatsapp w') = p /\
  Whatsapp.retries (whatsapp w') = 0 /\
  findIndex whatsappId (sessions w') <> -1 /\
  sessions w' = (if decide (findIndex whatsappId (sessions w) = -1)
                 then sessions w ++ [Session.mk (Session.client (wbot w))
                                                (Some whatsappId)]
                 else sessions w) /\
  promise w' = promise w.
Proof.
  unfold on_qr, registerIfAbsent. straight_line.
  destruct (decide (findIndex (Whatsapp.id (whatsapp w)) (sessions w) = -1)) as [E|E];
    simpl; split_and!; try done.
  eapply findIndex_elem; [apply elem_of_app; right; apply list_elem_of_singleton|];
    done.
Qed.

(** ** The bounded connect sequence *)

Lemma initializeWithRetry_gen_step (env : Env) (maxRetries intervalMs : Z)
    (s : Session.t) (a : Whatsapp.t) (retries : Z) (w : World) :
  initializeWithRetry_gen env maxRetries intervalMs s a retries w =
  let w1 := next_tick (emit_effect (ClientInitialize (Session.client s)) w) in
  match initialize_throws env (Session.client s) (tick w) with
  | None => (Ok tt, w1)
  | Some e =>
      if decide (retries < maxRetries) then
        initializeWithRetry_gen env maxRetries intervalMs s a (retries + 1)
          (emit_effect (Wait intervalMs)
             (emit_effect
                (Log warn (InitializationAttemptFailed (retries + 1) intervalMs)) w1))
      else (Throw e, w1)
  end.
Proof.
  pose proof (initializeWithRetry_gen_equation_1 env maxRetries intervalMs s a retries)
    as E.
  apply (f_equal (fun m => m w)) in E. rewrite E. clear E.
  unfold try_catch, client_initialize, call. simpl.
  destruct (initialize_throws env _ _); [|done].
  destruct (Z_lt_dec retries maxRetries), (decide (retries < maxRetries)); done.
Qed.

Lemma initializeWithRetry_gen_exhausts (env : Env) (maxRetries intervalMs : Z)
    (s : Session.t) (a : Whatsapp.t) (n : nat) :
  forall (retries : Z) (w : World),
    n = Z.to_nat (maxRetries - retries) ->
    (forall k, (k <= n)%nat ->
               initialize_throws env (Session.client s) (tick w + k) <> None) ->
    exists e,
      initialize_throws env (Session.client s) (tick w + n) = Some e /\
      initializeWithRetry_gen env maxRetries intervalMs s a retries w =
      (Throw e,
       after_calls w (failed_attempts (Session.client s) intervalMs n retries) (S n)).
Proof.
  induction n as [|n IH]; intros retries w Hn Hfail.
  - rewrite initializeWithRetry_gen_step. simpl.
    pose proof (Hfail 0%nat (le_n _)) as H0. rewrite Nat.add_0_r in *.
    destruct (initialize_throws env _ _) as [e|]; [|done].
    exists e. split; [done|]. rewrite decide_False by lia.
    unfold after_calls, next_tick, emit_effect. simpl. do 2 f_equal. lia.
  - rewrite initializeWithRetry_gen_step. simpl.
    pose proof (Hfail 0%nat (Nat.le_0_l _)) as H0. rewrite Nat.add_0_r in H0.
    destruct (initialize_throws env _ (tick w)) as [e0|]; [|done].
    rewrite decide_True by lia.
    edestruct (IH (retries + 1)) as (e & He & Hrun); [lia| |].
    2: { exists e. rewrite Hrun. simpl in He.
         split; [by rewrite <- He; f_equal; lia|].
         unfold after_calls. simpl. rewrite <- !app_assoc. simpl.
         do 2 f_equal. lia. }
    intros k Hk. simpl.
    replace (S (tick w + k)) with (tick w + S k)%nat by lia.
    apply Hfail. lia.
Qed.

Lemma count_app (p : Effect -> bool) (t t' : list Effect) :
  count p (t ++ t') = (count p t + count p t')%nat.
Proof. unfold count. by rewrite List.filter_app, length_app. Qed.

Lemma count_cons (p : Effect -> bool) (e : Effect) (t : list Effect) :
  count p (e :: t) = ((if p e then 1 else 0) + count p t)%nat.
Proof. unfold count. simpl. by destruct (p e). Qed.

Lemma connected_on_app (t t' : list Effect) :
  connected_on (t ++ t') = connected_on t ++ connected_on t'.
Proof. apply omap_app. Qed.

Lemma destroyed_on_app (t t' : list Effect) :
  destroyed_on (t ++ t') = destroyed_on t ++ destroyed_on t'.
Proof. apply omap_app. Qed.

Lemma count_failed_attempts (c : nat) (ms : Z) (n : nat) (retries : Z) :
  count is_attempt (failed_attempts c ms n retries) = S n /\
  count (is_wait ms) (failed_attempts c ms n retries) = n /\
  count is_notification (failed_attempts c ms n retries) = 0%nat /\
  count is_timer (failed_attempts c ms n retries) = 0%nat /\
  count is_construction (failed_attempts c ms n retries) = 0%nat /\
  connected_on (failed_attempts c ms n retries) = replicate (S n) c /\
  destroyed_on (failed_attempts c ms n retries) = [].
Proof.
  revert retries. induction n as [|n IH]; intros retries; [done|].
  destruct (IH (retries + 1)) as (H1 & H2 & H3 & H4 & H5 & H6 & H7).
  unfold count in *. simpl. rewrite bool_decide_true by done. simpl.
  unfold connected_on, destroyed_on in *. simpl.
  rewrite H1, H2, H3, H4, H5, H6, H7. done.
Qed.

Lemma failed_attempts_alternate (c : nat) (ms : Z) (n : nat) (retries : Z) :
  attempts_and_waits (failed_attempts c ms n retries)
  = mjoin (replicate n [ClientInitialize c; Wait ms]) ++ [ClientInitialize c].
Proof.
  revert retries. induction n as [|n IH]; intros retries; [done|].
  unfold attempts_and_waits in *. simpl. by rewrite IH.
Qed.

(** With the source's constants a connect sequence that always fails
    calls [initialize] six times, one more than [MAX_RETRIES]. *)
Lemma connect_attempts_cex :
  let run := initializeWithRetry broken_env (wbot sample_world) sample_account 0
                                 sample_world in
  fst run = Throw (External "boom") /\
  count is_attempt (trace (snd run)) = 6%nat /\
  count is_attempt (trace (snd run)) <> Z.to_nat MAX_RETRIES.
Proof. vm_compute. split_and!; [done | done | discriminate]. Qed.

(** C2, amended.  For every bound [maxRetries] that is not negative and
    every client whose [initialize] fails each time it is called during
    the sequence, the connect sequence started with a retry counter of 0
    calls [initialize] exactly [maxRetries + 1] times (once, and then
    once per retry), suspends for [intervalMs] exactly once between two
    consecutive calls, and then throws the error of the last call.
    Nothing but the trace and the call counter changes.  (A negative
    bound behaves like 0, which is what [Z.to_nat] says below.) *)
Theorem initializeWithRetry_exhausted (env : Env) (maxRetries intervalMs : Z)
    (s : Session.t) (a : Whatsapp.t) (w : World) :
  let n := Z.to_nat maxRetries in
  let t := failed_attempts (Session.client s) intervalMs n 0 in
  (forall k, (k <= n)%nat ->
             initialize_throws env (Session.client s) (tick w + k) <> None) ->
  exists e,
    initialize_throws env (Session.client s) (tick w + n) = Some e /\
    initializeWithRetry_gen env maxRetries intervalMs s a 0 w
      = (Throw e, after_calls w t (S n)) /\
    count is_attempt t = S n /\
    count (is_wait intervalMs) t = n /\
    attempts_and_waits t
      = mjoin (replicate n [ClientInitialize (Session.client s); Wait intervalMs])
        ++ [ClientInitialize (Session.client s)].
Proof.
  intros n t Hfail.
  destruct (initializeWithRetry_gen_exhausts env maxRetries intervalMs s a n 0 w)
    as (e & He & Hrun); [by rewrite Z.sub_0_r | done |].
  exists e. split_and!; try done.
  - apply count_failed_attempts.
  - apply count_failed_attempts.
  - apply failed_attempts_alternate.
Qed.

Lemma initializeWithRetry_exhausted_witness :
  exists e,
    initialize_throws broken_env 0 (0 + 5) = Some e /\
    initializeWithRetry_gen broken_env 5 5000 (Session.mk 0 None) sample_account 0
                            sample_world
      = (Throw e, after_calls sample_world (failed_attempts 0 5000 5 0) 6) /\
    count is_attempt (failed_attempts 0 5000 5 0) = 6%nat /\
    count (is_wait 5000) (failed_attempts 0 5000 5 0) = 5%nat /\
    attempts_and_waits (failed_attempts 0 5000 5 0)
      = mjoin (replicate 5 [ClientInitialize 0; Wait 5000]) ++ [ClientInitialize 0].
Proof.
  apply (initializeWithRetry_exhausted broken_env 5 5000 (Session.mk 0 None)
           sample_account sample_world).
  intros k _. simpl. discriminate.
Defined.

(** ** Code that only talks to collaborators *)

Lemma after_calls_nothing (w : World) : after_calls w [] 0 = w.
Proof. destruct w. unfold after_calls. simpl. by rewrite app_nil_r, Nat.add_0_r. Qed.

Lemma after_calls_twice (w : World) (t t' : list Effect) (k k' : nat) :
  after_calls (after_calls w t k) t' k' = after_calls w (t ++ t') (k + k').
Proof. unfold after_calls. simpl. by rewrite app_assoc, Nat.add_assoc. Qed.

Lemma after_calls_step (e : Effect) (w : World) :
  next_tick (emit_effect e w) = after_calls w [e] 1.
Proof. unfold after_calls, next_tick, emit_effect. simpl. f_equal. lia. Qed.

Lemma after_calls_log (e : Effect) (w : World) :
  emit_effect e w = after_calls w [e] 0.
Proof. unfold after_calls, emit_effect. simpl. f_equal. lia. Qed.

Section Framed.
Context (P : Effect -> Prop).

Lemma framed_ret {A} (a : A) : framed P (ret a).
Proof. intros w. exists [], 0%nat. by rewrite after_calls_nothing. Qed.

Lemma framed_throw {A} (e : Err) : framed P (@throw A e).
Proof. intros w. exists [], 0%nat. by rewrite after_calls_nothing. Qed.

Lemma framed_effect (e : Effect) : P e -> framed P (effect e).
Proof.
  intros He w. exists [e], 0%nat. unfold effect, modify. simpl.
  rewrite after_calls_log. by repeat constructor.
Qed.

Lemma framed_call (e : Effect) (answer : nat -> option Err) :
  P e -> framed P (call e answer).
Proof.
  intros He w. exists [e], 1%nat. unfold call.
  destruct (answer (tick w)); simpl; rewrite after_calls_step;
    by repeat constructor.
Qed.

Lemma framed_call_val {A} (e : Effect) (answer : nat -> Err + A) :
  P e -> framed P (call_val e answer).
Proof.
  intros He w. exists [e], 1%nat. unfold call_val.
  destruct (answer (tick w)); simpl; rewrite after_calls_step;
    by repeat constructor.
Qed.

Lemma framed_bind {A B} (m : M A) (k : A -> M B) :
  framed P m -> (forall a, framed P (k a)) -> framed P (bind m k).
Proof.
  intros Hm Hk w. unfold bind. destruct (Hm w) as (t & n & Hw & Ht).
  destruct (m w) as [[a|e] w1]; simpl in Hw; subst w1.
  - destruct (Hk a (after_calls w t n)) as (t' & n' & Hw' & Ht').
    exists (t ++ t'), (n + n')%nat. rewrite Hw', after_calls_twice.
    split; [done|]. by apply Forall_app.
  - by exists t, n.
Qed.

Lemma framed_try_catch {A} (m : M A) (h : Err -> M A) :
  framed P m -> (forall e, framed P (h e)) -> framed P (try_catch m h).
Proof.
  intros Hm Hh w. unfold try_catch. destruct (Hm w) as (t & n & Hw & Ht).
  destruct (m w) as [[a|e] w1]; simpl in Hw; subst w1.
  - by exists t, n.
  - destruct (Hh e (after_calls w t n)) as (t' & n' & Hw' & Ht').
    exists (t ++ t'), (n + n')%nat. rewrite Hw', after_calls_twice.
    split; [done|]. by apply Forall_app.
Qed.

Lemma framed_for_of {A} (l : list A) (body : A -> M unit) :
  (forall x, framed P (body x)) -> framed P (for_of l body).
Proof.
  intros Hbody. induction l as [|x l IH]; simpl.
  - apply framed_ret.
  - apply framed_bind; [apply Hbody | intros _; apply IH].
Qed.
End Framed.

Lemma framed_weaken {A} (P Q : Effect -> Prop) (m : M A) :
  (forall e, P e -> Q e) -> framed P m -> framed Q m.
Proof.
  intros HPQ Hm w. destruct (Hm w) as (t & k & Hw & Ht).
  exists t, k. split; [done|]. eapply Forall_impl; eauto.
Qed.

Lemma syncUnreadMessages_framed (env : Env) (s : Session.t) :
  framed sync_effect (syncUnreadMessages env s).
Proof.
  unfold syncUnreadMessages. apply framed_bind.
  - by apply framed_call_val.
  - intros chats. apply framed_for_of. intros chat.
    destruct (decide (unreadCount chat > 0)); [|apply framed_ret].
    apply framed_bind; [by apply framed_call_val|]. intros msgs.
    apply framed_bind; [|intros _; by apply framed_call].
    apply framed_for_of. intros msg. by apply framed_call.
Qed.

Lemma initializeWithRetry_gen_framed (env : Env) (maxRetries intervalMs : Z)
    (s : Session.t) (a : Whatsapp.t) (n : nat) :
  forall (retries : Z) (w : World),
    n = Z.to_nat (maxRetries - retries) ->
    exists t k,
      snd (initializeWithRetry_gen env maxRetries intervalMs s a retries w)
        = after_calls w (ClientInitialize (Session.client s) :: t) k /\
      Forall (connect_effect (Session.client s)) t.
Proof.
  induction n as [|n IH]; intros retries w Hn;
    rewrite initializeWithRetry_gen_step; simpl;
    destruct (initialize_throws env _ _) as [e|].
  2, 4: exists [], 1%nat; by rewrite after_calls_step.
  - rewrite decide_False by lia. exists [], 1%nat. by rewrite after_calls_step.
  - rewrite decide_True by lia.
    destruct (IH (retries + 1)
                (emit_effect (Wait intervalMs)
                   (emit_effect
                      (Log warn (InitializationAttemptFailed (retries + 1) intervalMs))
                      (next_tick
                         (emit_effect (ClientInitialize (Session.client s)) w)))))
      as (t & k & Hw & Ht); [lia|].
    rewrite Hw, after_calls_step, !after_calls_log, !after_calls_twice. simpl.
    eexists _, _. split; [reflexivity|].
    repeat first [done | constructor].
Qed.

Lemma connect_effect_reading (c : nat) (t : list Effect) :
  Forall (connect_effect c) t ->
  count is_notification t = 0%nat /\ count is_timer t = 0%nat /\
  count is_construction t = 0%nat /\ destroyed_on t = [] /\
  exists m, connected_on t = replicate m c.
Proof.
  unfold count, destroyed_on, connected_on.
  induction 1 as [|e t He _ (H1 & H2 & H3 & H4 & m & H5)];
    [by split_and!; try exists 0%nat|].
  destruct e as [lvl msg| | | | | |c'| | | | | |]; simpl in He; try done.
  - destruct lvl, msg; try done. simpl. split_and!; try done. by exists m.
  - simpl. split_and!; try done. by exists m.
  - subst c'. simpl. split_and!; try done. exists (S m). simpl. by f_equal.
Qed.

(** ** The reconnection cycle *)

Lemma destroyClient_after (env : Env) (s : Session.t) (w : World) :
  destroyClient env s w = (Ok tt, after_calls w (destroyClient_trace env s (tick w)) 1).
Proof.
  rewrite destroyClient_run. unfold destroyClient_trace. f_equal. simpl.
  destruct (destroy_throws env _ _); rewrite after_calls_step, ?after_calls_log,
    ?after_calls_twice; done.
Qed.

Lemma reconnect_run (env : Env) (w : World) :
  reconnect env w =
  let w1 := after_calls w (Log info (AttemptingToReconnect (sessionName w))
                             :: destroyClient_trace env (wbot w) (tick w)) 1 in
  match initializeWithRetry env (wbot w) (whatsapp w) 0 w1 with
  | (Ok _, w2) => (Ok tt, w2)
  | (Throw e, w2) => (Ok tt, reconnect_failed e w2)
  end.
Proof.
  unfold reconnect, try_catch, bind, get, logger, effect, modify. simpl.
  rewrite destroyClient_after, after_calls_log, after_calls_twice. simpl.
  rewrite Nat.add_0_r.
  destruct (initializeWithRetry env _ _ 0 _) as [[[]|e] w2]; done.
Qed.

(** C6.  When every [initialize] of a reconnection cycle fails, so that
    the cycle uses up its retries, [reconnect] returns normally: the
    status is set to DISCONNECTED and the QR payload to the empty string,
    exactly one status notification is emitted, carrying the account as
    just written, and no timer is set.  The registry, the client and the
    promise are as before. *)
Theorem reconnect_exhausted (env : Env) (w : World) :
  let c := Session.client (wbot w) in
  let n := Z.to_nat MAX_RETRIES in
  (forall k, (k <= n)%nat -> initialize_throws env c (S (tick w) + k) <> None) ->
  exists e,
    let w' := snd (reconnect env w) in
    let t := Log info (AttemptingToReconnect (sessionName w))
               :: destroyClient_trace env (wbot w) (tick w)
               ++ failed_attempts c RECONNECT_INTERVAL n 0
               ++ [Log error_ (ReconnectionFailed e);
                   IoEmit "whatsappSession" "update" (whatsapp w')] in
    initialize_throws env c (S (tick w) + n) = Some e /\
    fst (reconnect env w) = Ok tt /\
    whatsapp w' = update_status_qrcode "DISCONNECTED" "" (whatsapp w) /\
    Whatsapp.status (whatsapp w') = "DISCONNECTED" /\
    Whatsapp.qrcode (whatsapp w') = "" /\
    trace w' = trace w ++ t /\
    count is_notification t = 1%nat /\
    count is_timer t = 0%nat /\
    count is_attempt t = S n /\
    sessions w' = sessions w /\ wbot w' = wbot w /\ promise w' = promise w.
Proof.
  intros c n Hfail. rewrite reconnect_run. cbv zeta.
  set (w1 := after_calls w _ 1).
  destruct (initializeWithRetry_gen_exhausts env MAX_RETRIES RECONNECT_INTERVAL
              (wbot w) (whatsapp w) n 0 w1) as (e & He & Hrun).
  { by rewrite Z.sub_0_r. }
  { intros k Hk. subst w1. simpl.
    replace (tick w + 1 + k)%nat with (S (tick w) + k)%nat by lia. by apply Hfail. }
  exists e. unfold initializeWithRetry. rewrite Hrun.
  split. { rewrite <- He. subst w1. simpl. f_equal. lia. }
  destruct (count_failed_attempts c RECONNECT_INTERVAL n 0)
    as (Ha & _ & Hn & Ht & _).
  split_and!; try done.
  - subst w1. simpl. rewrite <- !app_assoc. done.
  - rewrite count_cons, !count_app. fold c. rewrite Hn.
    unfold destroyClient_trace. by destruct (destroy_throws env _ _).
  - rewrite count_cons, !count_app. fold c. rewrite Ht.
    unfold destroyClient_trace. by destruct (destroy_throws env _ _).
  - rewrite count_cons, !count_app. fold c. rewrite Ha.
    unfold destroyClient_trace. by destruct (destroy_throws env _ _).
Qed.

Lemma reconnect_exhausted_witness :
  exists e,
    let w' := snd (reconnect broken_env sample_world) in
    let t := Log info (AttemptingToReconnect "main")
               :: destroyClient_trace broken_env (Session.mk 0 None) 0
               ++ failed_attempts 0 RECONNECT_INTERVAL 5 0
               ++ [Log error_ (ReconnectionFailed e);
                   IoEmit "whatsappSession" "update" (whatsapp w')] in
    initialize_throws broken_env 0 (1 + 5) = Some e /\
    fst (reconnect broken_env sample_world) = Ok tt /\
    whatsapp w' = update_status_qrcode "DISCONNECTED" "" sample_account /\
    Whatsapp.status (whatsapp w') = "DISCONNECTED" /\
    Whatsapp.qrcode (whatsapp w') = "" /\
    trace w' = [] ++ t /\
    count is_notification t = 1%nat /\
    count is_timer t = 0%nat /\
    count is_attempt t = 6%nat /\
    sessions w' = [] /\ wbot w' = Session.mk 0 None /\ promise w' = Pending.
Proof.
  apply (reconnect_exhausted broken_env sample_world).
  intros k _. simpl. discriminate.
Defined.

(** ** Disconnection and the cycle it schedules *)

Lemma reconnect_same_client (env : Env) (w : World) :
  let c := Session.client (wbot w) in
  let w' := snd (reconnect env w) in
  exists t,
    trace w' = trace w
               ++ Log info (AttemptingToReconnect (sessionName w))
               :: ClientDestroy c :: t /\
    count is_construction t = 0%nat /\
    destroyed_on t = [] /\
    (exists m, connected_on t = replicate (S m) c) /\
    wbot w' = wbot w /\ sessions w' = sessions w /\ promise w' = promise w /\
    next_client w' = next_client w /\
    Whatsapp.id (whatsapp w') = Whatsapp.id (whatsapp w).
Proof.
  intros c w'. subst w'. rewrite reconnect_run. cbv zeta.
  set (w1 := after_calls w _ 1).
  destruct (initializeWithRetry_gen_framed env MAX_RETRIES RECONNECT_INTERVAL
              (wbot w) (whatsapp w) _ 0 w1 eq_refl) as (t & k & Hw & Ht).
  fold (initializeWithRetry env (wbot w) (whatsapp w) 0 w1) in Hw.
  destruct (connect_effect_reading _ _ Ht) as (_ & _ & Hc & Hd & m & Hm).
  fold c in Hw, Hm.
  set (dlog := match destroy_throws env c (tick w) with
               | None => []
               | Some e => [Log error_ (ErrorDestroyingClient e)]
               end).
  assert (count is_construction dlog = 0%nat /\ destroyed_on dlog = []
          /\ connected_on dlog = []) as (Hdc & Hdd & Hdi)
    by (subst dlog; by destruct (destroy_throws env c (tick w))).
  destruct (initializeWithRetry env _ _ 0 w1) as [[[]|e] w2]; simpl in Hw; subst w2.
  - exists (dlog ++ ClientInitialize c :: t). subst w1. simpl.
    split_and!; try done.
    + by rewrite <- !app_assoc.
    + by rewrite count_app, count_cons, Hdc, Hc.
    + rewrite destroyed_on_app, Hdd. exact Hd.
    + exists m. rewrite connected_on_app, Hdi. simpl. by f_equal.
  - exists (dlog ++ (ClientInitialize c :: t)
              ++ [Log error_ (ReconnectionFailed e);
                  IoEmit "whatsappSession" "update"
                    (update_status_qrcode "DISCONNECTED" "" (whatsapp w))]).
    subst w1. simpl. split_and!; try done.
    + by rewrite <- !app_assoc.
    + by rewrite !count_app, count_cons, count_app, Hdc, Hc.
    + rewrite destroyed_on_app, Hdd.
      change (destroyed_on (t ++ [Log error_ (ReconnectionFailed e);
                IoEmit "whatsappSession" "update"
                  (update_status_qrcode "DISCONNECTED" "" (whatsapp w))]) = []).
      by rewrite destroyed_on_app, Hd.
    + exists m. rewrite connected_on_app, Hdi.
      change (c :: connected_on
                (t ++ [Log error_ (ReconnectionFailed e);
                       IoEmit "whatsappSession" "update"
                         (update_status_qrcode "DISCONNECTED" "" (whatsapp w))])
              = c :: replicate m c).
      by rewrite connected_on_app, Hm, app_nil_r.
Qed.

(** The claim C9 asks for a newly constructed client in the cycle.  In
    the run below the account is disconnected and the timer comes due:
    the cycle destroys client [0], calls [initialize] on client [0], and
    constructs nothing. *)
Lemma reconnect_fresh_handle_cex :
  let w1 := emit calm_env (disconnected "NAVIGATION") sample_world in
  let w2 := fire calm_env (reconnectCb 0) w1 in
  destroyed_on (trace w2) = [0%nat] /\
  connected_on (trace w2) = [0%nat] /\
  count is_construction (trace w2) = 0%nat /\
  wbot w2 = wbot sample_world.
Proof. vm_compute. done. Qed.

(** C9, amended.  The handler of a [disconnected] or [auth_failure]
    event sets the status to DISCONNECTED and sets exactly one timer,
    for [reconnect] after [RECONNECT_INTERVAL].  When that timer comes
    due the cycle first destroys the closure's client and then runs the
    bounded connect sequence on that same client: every [initialize] of
    the cycle is called on it, there is at least one, and no client is
    constructed. *)
Theorem reconnect_cycle (env : Env) (ev : Event) (w : World) :
  disconnects ev = true ->
  let c := Session.client (wbot w) in
  let w1 := emit env ev w in
  let w2 := fire env (reconnectCb c) w1 in
  Whatsapp.status (whatsapp w1) = "DISCONNECTED" /\
  (exists t1, trace w1 = trace w ++ t1 /\
              List.filter is_timer t1
              = [SetTimeout (reconnectCb c) RECONNECT_INTERVAL]) /\
  wbot w1 = wbot w /\
  (exists t2, trace w2 = trace w1
                         ++ Log info (AttemptingToReconnect (sessionName w))
                         :: ClientDestroy c :: t2 /\
              count is_construction t2 = 0%nat /\
              destroyed_on t2 = [] /\
              (exists m, connected_on t2 = replicate (S m) c) /\
              wbot w2 = wbot w).
Proof.
  intros Hev c w1 w2.
  assert (Whatsapp.status (whatsapp w1) = "DISCONNECTED" /\
          (exists t1, trace w1 = trace w ++ t1 /\
                      List.filter is_timer t1
                      = [SetTimeout (reconnectCb c) RECONNECT_INTERVAL]) /\
          wbot w1 = wbot w /\ sessionName w1 = sessionName w) as (Hs & Ht & Hb & Hn).
  { subst w1 c. destruct ev; try done; unfold emit, handler.
    - unfold on_auth_failure. straight_line.
      destruct (decide (Whatsapp.retries (whatsapp w) > 1)); simpl;
        (split_and!; try done; eexists; rewrite <- !app_assoc; split; [reflexivity|done]).
    - unfold on_disconnected. straight_line.
      split_and!; try done. eexists. rewrite <- !app_assoc. split; [reflexivity|done]. }
  split_and!; try done.
  destruct (reconnect_same_client env w1) as (t2 & H1 & H2 & H3 & H4 & H5 & _).
  subst w2. unfold fire. rewrite Hb, Hn in *. fold c in H1, H4.
  exists t2. split_and!; try done.
Qed.

Lemma reconnect_cycle_witness :
  let w1 := emit calm_env (disconnected "NAVIGATION") sample_world in
  let w2 := fire calm_env (reconnectCb 0) w1 in
  Whatsapp.status (whatsapp w1) = "DISCONNECTED" /\
  (exists t1, trace w1 = [] ++ t1 /\
              List.filter is_timer t1
              = [SetTimeout (reconnectCb 0) RECONNECT_INTERVAL]) /\
  wbot w1 = Session.mk 0 None /\
  (exists t2, trace w2 = trace w1
                         ++ Log info (AttemptingToReconnect "main")
                         :: ClientDestroy 0 :: t2 /\
              count is_construction t2 = 0%nat /\
              destroyed_on t2 = [] /\
              (exists m, connected_on t2 = replicate (S m) 0%nat) /\
              wbot w2 = Session.mk 0 None).
Proof.
  apply (reconnect_cycle calm_env (disconnected "NAVIGATION") sample_world).
  reflexivity.
Defined.

(** ** The [ready] handler *)

Lemma registerIfAbsent_run (w : World) :
  registerIfAbsent w = (Ok tt, register_world w).
Proof.
  unfold registerIfAbsent, register_world, bind, get, modify. simpl.
  by destruct (decide (findIndex _ _ = -1)).
Qed.

Lemma on_ready_run (env : Env) (w : World) :
  on_ready env w =
  let w1 := ready_before_sync w in
  match syncUnreadMessages env (wbot w1) w1 with
  | (Ok _, w2) => resolve (wbot w1) w2
  | (Throw e, w2) => (Throw e, w2)
  end.
Proof.
  unfold on_ready, ready_before_sync, bind, get, logger, effect, update,
    io_emit_update, modify. simpl. rewrite registerIfAbsent_run. simpl.
  by destruct (syncUnreadMessages env _ _) as [[[]|e] w2].
Qed.

Lemma register_world_facts (w : World) :
  let whatsappId := Whatsapp.id (whatsapp w) in
  findIndex whatsappId (sessions (register_world w)) <> -1 /\
  whatsapp (register_world w) = whatsapp w /\
  promise (register_world w) = promise w /\
  trace (register_world w) = trace w /\
  Session.client (wbot (register_world w)) = Session.client (wbot w).
Proof.
  unfold register_world. simpl.
  destruct (decide (findIndex _ _ = -1)); simpl; split_and!; try done.
  eapply findIndex_elem; [apply elem_of_app; right; apply list_elem_of_singleton|];
    done.
Qed.

Lemma sync_effect_reading (t : list Effect) :
  Forall sync_effect t -> count is_notification t = 0%nat.
Proof.
  unfold count. induction 1 as [|e t He _ IH]; [done|].
  destruct e; simpl in He; try done.
Qed.

(** C4.  After the [ready] handler, whether or not the sync that ends it
    succeeds, the account has status CONNECTED, an empty QR payload and
    a retry counter of 0, and the handler emitted exactly one status
    notification, on [whatsappSession] with action [update], carrying
    the account in that state. *)
Theorem ready_transition (env : Env) (w : World) :
  let w' := snd (on_ready env w) in
  Whatsapp.status (whatsapp w') = "CONNECTED" /\
  Whatsapp.qrcode (whatsapp w') = "" /\
  Whatsapp.retries (whatsapp w') = 0 /\
  exists t,
    trace w' = trace w
               ++ Log info (SessionReady (sessionName w))
               :: IoEmit "whatsappSession" "update" (whatsapp w')
               :: t /\
    count is_notification t = 0%nat.
Proof.
  intros w'. subst w'. rewrite on_ready_run. cbv zeta.
  destruct (syncUnreadMessages_framed env (wbot (ready_before_sync w))
              (ready_before_sync w)) as (t & k & Hw & Ht).
  apply sync_effect_reading in Ht.
  destruct (register_world_facts
              (emit_effect
                 (IoEmit "whatsappSession" "update"
                    (update_status_qrcode_retries "CONNECTED" "" 0 (whatsapp w)))
                 (set_whatsapp (update_status_qrcode_retries "CONNECTED" "" 0 (whatsapp w))
                    (emit_effect (Log info (SessionReady (sessionName w))) w))))
    as (_ & Ha & _ & Htr & _).
  assert (whatsapp (ready_before_sync w)
          = update_status_qrcode_retries "CONNECTED" "" 0 (whatsapp w)) as Hacc
    by (unfold ready_before_sync; simpl; by rewrite Ha).
  assert (exists c, trace (ready_before_sync w)
          = trace w ++ [Log info (SessionReady (sessionName w));
                        IoEmit "whatsappSession" "update"
                          (update_status_qrcode_retries "CONNECTED" "" 0 (whatsapp w));
                        SendPresenceAvailable c]) as (c & Htrace).
  { eexists. unfold ready_before_sync. simpl. rewrite Htr. simpl.
    by rewrite <- !app_assoc. }
  assert (whatsapp (snd (syncUnreadMessages env (wbot (ready_before_sync w))
                           (ready_before_sync w)))
          = update_status_qrcode_retries "CONNECTED" "" 0 (whatsapp w) /\
          trace (snd (syncUnreadMessages env (wbot (ready_before_sync w))
                        (ready_before_sync w)))
          = trace w ++ Log info (SessionReady (sessionName w))
              :: IoEmit "whatsappSession" "update"
                   (update_status_qrcode_retries "CONNECTED" "" 0 (whatsapp w))
              :: SendPresenceAvailable c :: t) as (Hw1 & Hw2).
  { rewrite Hw. unfold after_calls. cbn [whatsapp trace].
    rewrite Hacc, Htrace, <- app_assoc. done. }
  destruct (syncUnreadMessages env _ _) as [[[]|e] w2]; simpl in Hw1, Hw2.
  - unfold resolve, modify. simpl.
    destruct (promise w2); simpl; rewrite Hw1, Hw2;
      (split_and!; try done; eexists; split; [reflexivity|by rewrite count_cons]).
  - simpl. rewrite Hw1, Hw2.
    split_and!; try done. eexists; split; [reflexivity|by rewrite count_cons].
Qed.

(** The claim C10 says that the promise never settles once the sync of
    the first [ready] event threw.  In the run below it does throw, and
    the promise is pending after that event; the account is then
    disconnected, the reconnection cycle runs, the engine emits [ready]
    again, this sync succeeds, and the handler resolves the promise. *)
Lemma init_promise_settles_later_cex :
  let w0 := snd (initWbot flaky_env sample_account blank_world) in
  let w1 := emit flaky_env ready w0 in
  let w2 := emit flaky_env ready
              (fire flaky_env (reconnectCb 0)
                 (emit flaky_env (disconnected "NAVIGATION") w1)) in
  fst (syncUnreadMessages flaky_env (wbot (ready_before_sync w0)) (ready_before_sync w0))
    = Throw (External "chats") /\
  promise w1 = Pending /\
  Whatsapp.status (whatsapp w1) = "CONNECTED" /\
  sessions w1 = [Session.mk 0 (Some 7)] /\
  promise w2 = Resolved (Session.mk 0 (Some 7)).
Proof. vm_compute. done. Qed.

Lemma emit_other_promise (env : Env) (ev : Event) (w : World) :
  ev <> ready -> promise (emit env ev w) = promise w.
Proof.
  intros Hev. destruct ev; try done; unfold emit, handler.
  - unfold on_qr. straight_line.
    rewrite registerIfAbsent_run. simpl.
    by destruct (register_world_facts
                   (set_whatsapp (update_qr code (whatsapp w))
                      (emit_effect (QrGenerate code)
                         (emit_effect (Log info (SessionColon (sessionName w))) w))))
      as (_ & _ & -> & _).
  - unfold on_auth_failure. straight_line.
    by destruct (decide (Whatsapp.retries (whatsapp w) > 1)).
Qed.

Lemma ready_before_sync_facts (w : World) :
  let w1 := ready_before_sync w in
  promise w1 = promise w /\
  Whatsapp.status (whatsapp w1) = "CONNECTED" /\
  Whatsapp.id (whatsapp w1) = Whatsapp.id (whatsapp w) /\
  findIndex (Whatsapp.id (whatsapp w)) (sessions w1) <> -1.
Proof.
  unfold ready_before_sync. cbv zeta.
  set (w0 := emit_effect _ (set_whatsapp _ _)).
  destruct (register_world_facts w0) as (Hf & Ha & Hp & _).
  cbn [promise whatsapp sessions emit_effect]. rewrite Hp, Ha. by subst w0.
Qed.

(** C10, amended.  When the unread-history sync started by a [ready]
    handler throws, the handler fails with that error without touching
    the promise: the promise is as it was before the event (pending, at
    the first [ready] event), although the status is already CONNECTED
    and the identity is already registered.  No other event and no
    reconnection cycle settles the promise either; a later [ready] event
    whose handler runs to its end resolves a promise that is still
    pending. *)
Theorem ready_sync_failure (env : Env) (w : World) (e : Err) :
  let w1 := ready_before_sync w in
  fst (syncUnreadMessages env (wbot w1) w1) = Throw e ->
  let w' := snd (on_ready env w) in
  fst (on_ready env w) = Throw e /\
  promise w' = promise w /\
  Whatsapp.status (whatsapp w') = "CONNECTED" /\
  findIndex (Whatsapp.id (whatsapp w)) (sessions w') <> -1 /\
  (forall ev v, ev <> ready -> promise (emit env ev v) = promise v) /\
  (forall cb v, promise (fire env cb v) = promise v) /\
  (forall v, promise v = Pending -> fst (on_ready env v) = Ok tt ->
             promise (emit env ready v) = Resolved (wbot (ready_before_sync v))).
Proof.
  intros w1 Hsync w'. subst w'. rewrite on_ready_run. cbv zeta. fold w1.
  destruct (syncUnreadMessages_framed env (wbot w1) w1) as (t & k & Hw & _).
  destruct (ready_before_sync_facts w) as (Hp & Hs & _ & Hr). fold w1 in Hp, Hs, Hr.
  destruct (syncUnreadMessages env (wbot w1) w1) as [[[]|e'] w2] eqn:Erun;
    simpl in Hsync; [done|]. injection Hsync as ->. simpl in Hw. subst w2.
  split_and!; try done.
  - intros ev v. apply emit_other_promise.
  - intros [c] v. unfold fire.
    by destruct (reconnect_same_client env v) as (_ & _ & _ & _ & _ & _ & _ & -> & _).
  - intros v Hv. unfold emit, handler. rewrite on_ready_run. cbv zeta.
    destruct (syncUnreadMessages_framed env (wbot (ready_before_sync v))
                (ready_before_sync v)) as (t' & k' & Hw' & _).
    destruct (ready_before_sync_facts v) as (Hp' & _).
    destruct (syncUnreadMessages env (wbot (ready_before_sync v))
                (ready_before_sync v)) as [[[]|e'] w2]; [|done].
    intros _. simpl in Hw'. subst w2. unfold resolve, modify, after_calls.
    cbn [fst snd promise]. rewrite Hp', Hv. done.
Qed.

Lemma ready_sync_failure_witness :
  let w := snd (initWbot flaky_env sample_account blank_world) in
  let w' := snd (on_ready flaky_env w) in
  fst (on_ready flaky_env w) = Throw (External "chats") /\
  promise w' = promise w /\
  Whatsapp.status (whatsapp w') = "CONNECTED" /\
  findIndex (Whatsapp.id (whatsapp w)) (sessions w') <> -1 /\
  (forall ev v, ev <> ready -> promise (emit flaky_env ev v) = promise v) /\
  (forall cb v, promise (fire flaky_env cb v) = promise v) /\
  (forall v, promise v = Pending -> fst (on_ready flaky_env v) = Ok tt ->
             promise (emit flaky_env ready v) = Resolved (wbot (ready_before_sync v))).
Proof.
  apply (ready_sync_failure flaky_env
           (snd (initWbot flaky_env sample_account blank_world)) (External "chats")).
  vm_compute. reflexivity.
Defined.

(** ** One session per identity *)

Lemma register_world_sessions (w : World) :
  sessions (register_world w)
    = register (Whatsapp.id (whatsapp w)) (Session.client (wbot w)) (sessions w).
Proof.
  unfold register_world, register. simpl. by destruct (decide (findIndex _ _ = -1)).
Qed.

Lemma emit_registry (env : Env) (ev : Event) (w : World) :
  sessions (emit env ev w)
    = (if registers ev
       then register (Whatsapp.id (whatsapp w)) (Session.client (wbot w)) (sessions w)
       else sessions w) /\
  Whatsapp.id (whatsapp (emit env ev w)) = Whatsapp.id (whatsapp w) /\
  Session.client (wbot (emit env ev w)) = Session.client (wbot w).
Proof.
  destruct ev; unfold emit, handler.
  - unfold on_qr. straight_line.
    rewrite registerIfAbsent_run. simpl. rewrite register_world_sessions.
    by destruct (register_world_facts
                   (set_whatsapp (update_qr code (whatsapp w))
                      (emit_effect (QrGenerate code)
                         (emit_effect (Log info (SessionColon (sessionName w))) w))))
      as (_ & -> & _ & _ & ->).
  - done.
  - unfold on_auth_failure. straight_line.
    by destruct (decide (Whatsapp.retries (whatsapp w) > 1)).
  - done.
  - rewrite on_ready_run. cbv zeta.
    destruct (syncUnreadMessages_framed env (wbot (ready_before_sync w))
                (ready_before_sync w)) as (t & k & Hw & _).
    assert (sessions (ready_before_sync w)
            = register (Whatsapp.id (whatsapp w)) (Session.client (wbot w)) (sessions w)
            /\ Whatsapp.id (whatsapp (ready_before_sync w)) = Whatsapp.id (whatsapp w)
            /\ Session.client (wbot (ready_before_sync w)) = Session.client (wbot w))
      as (Hs & Ha & Hc).
    { unfold ready_before_sync. cbv zeta.
      set (w0 := emit_effect _ (set_whatsapp _ _)).
      destruct (register_world_facts w0) as (_ & Hacc & _ & _ & Hcl).
      cbn [sessions whatsapp wbot emit_effect].
      rewrite register_world_sessions, Hacc, Hcl. by subst w0. }
    destruct (syncUnreadMessages env _ _) as [[[]|e] w2]; simpl in Hw; subst w2.
    + unfold resolve, modify, after_calls. cbn [fst snd promise].
      by destruct (promise (ready_before_sync w)).
    + done.
Qed.

Lemma registered_snoc (j i : Z) (c : nat) (l : list Session.t) :
  registered j (l ++ [Session.mk c (Some i)])
    = (registered j l + if decide (j = i) then 1 else 0)%nat.
Proof.
  rewrite registered_app. f_equal. unfold registered.
  destruct (decide (j = i)) as [->|Hne].
  - by rewrite filter_cons_True.
  - rewrite filter_cons_False; [done|]. simpl. congruence.
Qed.

Lemma register_once (i : Z) (c : nat) (l : list Session.t) :
  (forall j, (registered j l <= 1)%nat) ->
  (forall j, (registered j (register i c l) <= 1)%nat) /\
  registered i (register i c l) = 1%nat /\
  l `prefix_of` register i c l /\
  (registered i l = 1%nat -> register i c l = l).
Proof.
  intros Hinv. unfold register.
  destruct (decide (findIndex i l = -1)) as [Habs|Hpres].
  - pose proof (registered_absent _ _ Habs) as H0. split_and!.
    + intros j. rewrite registered_snoc. destruct (decide (j = i)) as [->|]; [lia|].
      specialize (Hinv j). lia.
    + rewrite registered_snoc, decide_True by done. lia.
    + by apply prefix_app_r.
    + lia.
  - pose proof (registered_present _ _ Hpres) as H1. specialize (Hinv i) as Hi.
    split_and!; try done. lia.
Qed.

Lemma emit_all_snoc (env : Env) (evs : list Event) (ev : Event) (w : World) :
  emit_all env (evs ++ [ev]) w = emit env ev (emit_all env evs w).
Proof. unfold emit_all. by rewrite foldl_app. Qed.

Lemma emit_all_registry (env : Env) (evs : list Event) (w : World) :
  (forall j, (registered j (sessions w) <= 1)%nat) ->
  let i := Whatsapp.id (whatsapp w) in
  let w' := emit_all env evs w in
  Whatsapp.id (whatsapp w') = i /\
  (forall j, (registered j (sessions w') <= 1)%nat) /\
  (Exists (fun ev => registers ev = true) evs -> registered i (sessions w') = 1%nat) /\
  sessions w `prefix_of` sessions w' /\
  (registered i (sessions w) = 1%nat -> sessions w' = sessions w).
Proof.
  intros Hinv i. induction evs as [|ev evs IH] using rev_ind.
  - simpl. split_and!; try done. by intros ?%Exists_nil.
  - rewrite emit_all_snoc. cbv zeta in *.
    destruct IH as (Hid & Hinv' & Hex & Hpre & Hsame).
    destruct (emit_registry env ev (emit_all env evs w)) as (Hs & Ha & _).
    rewrite Hid in Hs, Ha. fold i in Hs, Ha.
    destruct (register_once i (Session.client (wbot (emit_all env evs w)))
                (sessions (emit_all env evs w)) Hinv') as (R1 & R2 & R3 & R4).
    rewrite Hs, Ha. destruct (registers ev) eqn:Hev.
    + split_and!; try done.
      * by etransitivity.
      * intros H1. rewrite (Hsame H1) in *. by rewrite R4.
    + split_and!; try done.
      intros [H|H]%Exists_app; [by apply Hex|].
      apply Exists_cons in H as [H|H%Exists_nil]; [congruence|done].
Qed.

(** C1.  Starting from a registry that holds every identity at most
    once, any sequence of [qr] and [ready] events for an account leaves
    every identity at most once in the registry, after each event of
    the sequence as well as at its end.  As soon as one event was
    handled the account's own identity is registered exactly once.  The
    handlers only append: the sessions registered before are still
    there, in place, and when the identity was registered already the
    registry is not changed at all. *)
Theorem registry_one_per_identity (env : Env) (evs : list Event) (w : World) :
  (forall j, (registered j (sessions w) <= 1)%nat) ->
  Forall (fun ev => registers ev = true) evs ->
  let i := Whatsapp.id (whatsapp w) in
  let w' := emit_all env evs w in
  (forall j, (registered j (sessions w') <= 1)%nat) /\
  (forall k j, (registered j (sessions (emit_all env (take k evs) w)) <= 1)%nat) /\
  (evs <> [] -> registered i (sessions w') = 1%nat) /\
  sessions w `prefix_of` sessions w' /\
  (registered i (sessions w) = 1%nat -> sessions w' = sessions w).
Proof.
  intros Hinv Hevs i w'.
  destruct (emit_all_registry env evs w Hinv) as (_ & H1 & H2 & H3 & H4).
  split_and!; try done.
  - intros k. by destruct (emit_all_registry env (take k evs) w Hinv) as (_ & ? & _).
  - intros Hne. apply H2. destruct evs as [|ev evs]; [done|].
    apply Exists_cons_hd. by apply Forall_cons in Hevs as [? _].
Qed.

Lemma registry_one_per_identity_witness :
  let evs := [qr "XYZ"; ready; qr "ABC"; ready] in
  let w := set_sessions [Session.mk 4 (Some 3)] sample_world in
  let w' := emit_all calm_env evs w in
  (forall j, (registered j (sessions w') <= 1)%nat) /\
  (forall k j, (registered j (sessions (emit_all calm_env (take k evs) w)) <= 1)%nat) /\
  (evs <> [] -> registered 7 (sessions w') = 1%nat) /\
  [Session.mk 4 (Some 3)] `prefix_of` sessions w' /\
  (registered 7 [Session.mk 4 (Some 3)] = 1%nat -> sessions w' = [Session.mk 4 (Some 3)]).
Proof.
  apply (registry_one_per_identity calm_env [qr "XYZ"; ready; qr "ABC"; ready]
           (set_sessions [Session.mk 4 (Some 3)] sample_world)).
  - intros j. change (sessions _) with ([] ++ [Session.mk 4 (Some 3)]).
    rewrite registered_snoc. destruct (decide (j = 3)); simpl; lia.
  - repeat constructor.
Defined.

(** *** The registry under every step

    Not only [qr] and [ready] events keep the registry free of
    duplicates: so does everything that can happen to the module,
    starting from the empty registry the module is loaded with. *)

Lemma registered_delete_le (j : Z) (k : nat) (l : list Session.t) :
  (registered j (delete k l) <= registered j l)%nat.
Proof.
  revert k. induction l as [|s l IH]; intros [|k]; try done.
  - change (registered j l <= registered j ([s] ++ l))%nat.
    rewrite registered_app. lia.
  - change (registered j ([s] ++ delete k l) <= registered j ([s] ++ l))%nat.
    rewrite !registered_app. specialize (IH k). lia.
Qed.

Lemma removeWbot_resume_sessions (p : Removal) (w : World) :
  exists k, sessions (snd (removeWbot_resume p w)) = delete k (sessions w).
Proof.
  rewrite removeWbot_resume_run. cbn [snd]. unfold splice1.
  destruct (destroy_answer p); destruct (decide (found_at p < 0)); simpl; eauto.
Qed.

Lemma removeWbot_start_sessions (env : Env) (i : Z) (w : World) :
  sessions (snd (removeWbot_start env i w)) = sessions w.
Proof.
  destruct (decide (findIndex i (sessions w) = -1)) as [Habs|Hne].
  - by rewrite removeWbot_start_absent.
  - by destruct (removeWbot_start_found env i w Hne) as (k & s & _ & _ & _ & _ & ->).
Qed.

Lemma removeWbot_sessions (env : Env) (i : Z) (w : World) :
  sessions (snd (removeWbot env i w)) = sessions w \/
  exists k, sessions (snd (removeWbot env i w)) = delete k (sessions w).
Proof.
  unfold removeWbot, bind.
  pose proof (removeWbot_start_sessions env i w) as Hs.
  destruct (removeWbot_start env i w) as [[[p|]|e] w1]; simpl in Hs; try by left.
  right. destruct (removeWbot_resume_sessions p w1) as [k Hk].
  exists k. by rewrite Hk, Hs.
Qed.

Lemma keeps_registry_ret {A} (a : A) : keeps_registry (ret a).
Proof. done. Qed.

Lemma keeps_registry_throw {A} (e : Err) : keeps_registry (@throw A e).
Proof. done. Qed.

Lemma keeps_registry_modify (f : World -> World) :
  (forall w, sessions (f w) = sessions w) -> keeps_registry (modify f).
Proof. intros Hf w. apply Hf. Qed.

Lemma keeps_registry_bind {A B} (m : M A) (k : A -> M B) :
  keeps_registry m -> (forall a, keeps_registry (k a)) -> keeps_registry (bind m k).
Proof.
  intros Hm Hk w. unfold bind. specialize (Hm w).
  destruct (m w) as [[a|e] w1]; simpl in Hm; [|done].
  by rewrite Hk.
Qed.

Lemma keeps_registry_try_catch {A} (m : M A) (h : Err -> M A) :
  keeps_registry m -> (forall e, keeps_registry (h e)) ->
  keeps_registry (try_catch m h).
Proof.
  intros Hm Hh w. unfold try_catch. specialize (Hm w).
  destruct (m w) as [[a|e] w1]; simpl in Hm; [done|].
  by rewrite Hh.
Qed.

Lemma keeps_registry_framed {A} (P : Effect -> Prop) (m : M A) :
  framed P m -> keeps_registry m.
Proof. intros Hm w. by destruct (Hm w) as (t & k & -> & _). Qed.

Lemma initializeWithRetry_keeps_registry (env : Env) (s : Session.t) (a : Whatsapp.t) :
  keeps_registry (initializeWithRetry env s a 0).
Proof.
  intros w. unfold initializeWithRetry.
  by destruct (initializeWithRetry_gen_framed env MAX_RETRIES RECONNECT_INTERVAL
                 s a _ 0 w eq_refl) as (t & k & -> & _).
Qed.

Lemma reject_keeps_registry (e : Err) : keeps_registry (reject e).
Proof. intros w. unfold reject, modify. simpl. by destruct (promise w). Qed.

Lemma new_Client_keeps_registry (env : Env) (i : Z) :
  keeps_registry (new_Client env i).
Proof. intros w. unfold new_Client. by destruct (new_Client_throws env i). Qed.

Lemma initWbot_keeps_registry (env : Env) (a : Whatsapp.t) :
  keeps_registry (initWbot env a).
Proof.
  unfold initWbot.
  apply keeps_registry_bind; [by apply keeps_registry_modify | intros _].
  apply keeps_registry_bind; [by apply keeps_registry_modify | intros _].
  apply keeps_registry_try_catch.
  2: { intros e. apply keeps_registry_bind; [by apply keeps_registry_modify|].
       intros _. apply reject_keeps_registry. }
  apply keeps_registry_bind.
  { unfold getIO. by destruct (getIO_throws env). }
  intros _. apply keeps_registry_bind; [by apply keeps_registry_modify | intros _].
  apply keeps_registry_bind.
  { destruct (decide (Whatsapp.session a = "")); [done|].
    unfold JSON_parse. by destruct (JSON_parse_throws env _). }
  intros _. apply keeps_registry_bind; [apply new_Client_keeps_registry | intros s].
  apply keeps_registry_bind; [by apply keeps_registry_modify | intros _].
  apply keeps_registry_try_catch; [apply initializeWithRetry_keeps_registry|].
  intros e. apply keeps_registry_bind; [by apply keeps_registry_modify|].
  intros _. apply reject_keeps_registry.
Qed.

Lemma step_registry (env : Env) (s : Step) (w : World) :
  (forall j, (registered j (sessions w) <= 1)%nat) ->
  forall j, (registered j (sessions (step env s w)) <= 1)%nat.
Proof.
  intros Hinv j. destruct s as [ev|cb|a|i|i|p]; simpl.
  - by destruct (emit_all_registry env [ev] w Hinv) as (_ & ? & _).
  - destruct cb as [c]. simpl.
    by destruct (reconnect_same_client env w) as (_ & _ & _ & _ & _ & _ & -> & _).
  - by rewrite initWbot_keeps_registry.
  - destruct (removeWbot_sessions env i w) as [->|[k ->]]; [done|].
    etransitivity; [apply registered_delete_le | apply Hinv].
  - by rewrite removeWbot_start_sessions.
  - destruct (removeWbot_resume_sessions p w) as [k ->].
    etransitivity; [apply registered_delete_le | apply Hinv].
Qed.

(** From the empty registry, whatever happens, no identity is ever
    registered twice. *)
Lemma run_registry (env : Env) (steps : list Step) (j : Z) :
  (registered j (sessions (run env steps blank_world)) <= 1)%nat.
Proof.
  revert j. induction steps as [|s steps IH] using rev_ind; intros j.
  - unfold registered. simpl. lia.
  - unfold run. rewrite foldl_app. simpl. by apply step_registry.
Qed.

(** * Further properties of the code *)

(** ** The connect sequence in every environment *)

(** The sequence stops at the first attempt [k] that succeeds, or at the
    last attempt it is allowed. *)
Lemma initializeWithRetry_gen_shape (env : Env) (maxRetries intervalMs : Z)
    (s : Session.t) (a : Whatsapp.t) (n : nat) :
  forall (retries : Z) (w : World),
    n = Z.to_nat (maxRetries - retries) ->
    exists k,
      (k <= n)%nat /\
      (forall j, (j < k)%nat ->
                 initialize_throws env (Session.client s) (tick w + j) <> None) /\
      (initialize_throws env (Session.client s) (tick w + k) <> None -> k = n) /\
      initializeWithRetry_gen env maxRetries intervalMs s a retries w =
      (match initialize_throws env (Session.client s) (tick w + k) with
       | None => Ok tt
       | Some e => Throw e
       end,
       after_calls w (failed_attempts (Session.client s) intervalMs k retries) (S k)).
Proof.
  induction n as [|n IH]; intros retries w Hn;
    rewrite initializeWithRetry_gen_step; cbv zeta;
    destruct (initialize_throws env (Session.client s) (tick w)) as [e|] eqn:E0.
  - exists 0%nat. rewrite Nat.add_0_r, E0, decide_False by lia.
    split_and!; try done; try lia. by rewrite after_calls_step.
  - exists 0%nat. rewrite Nat.add_0_r, E0.
    split_and!; try done; try lia. by rewrite after_calls_step.
  - rewrite decide_True by lia.
    set (w1 := emit_effect (Wait intervalMs) _).
    destruct (IH (retries + 1) w1) as (k & Hk & Hbefore & Hlast & Hrun); [lia|].
    assert (tick w1 = S (tick w)) as Htick by done.
    exists (S k). rewrite Hrun, Htick.
    replace (tick w + S k)%nat with (S (tick w) + k)%nat by lia.
    split_and!; try lia.
    + intros [|j] Hj; [by rewrite Nat.add_0_r, E0|].
      replace (tick w + S j)%nat with (tick w1 + j)%nat by lia. apply Hbefore. lia.
    + intros H. rewrite <- Htick in H. apply Hlast in H. lia.
    + f_equal. subst w1.
      rewrite after_calls_step, !after_calls_log, !after_calls_twice. simpl.
      done.
  - exists 0%nat. rewrite Nat.add_0_r, E0.
    split_and!; try done; try lia. by rewrite after_calls_step.
Qed.

(** X1.  When [initialize] fails [k] times and then succeeds, with [k]
    within the bound, the connect sequence returns normally after
    exactly [k + 1] attempts and [k] suspensions, the failed attempts
    being logged as attempts 1 to [k]. *)
Theorem initializeWithRetry_succeeds_after (env : Env) (maxRetries intervalMs : Z)
    (s : Session.t) (a : Whatsapp.t) (w : World) (k : nat) :
  (k <= Z.to_nat maxRetries)%nat ->
  (forall j, (j < k)%nat ->
             initialize_throws env (Session.client s) (tick w + j) <> None) ->
  initialize_throws env (Session.client s) (tick w + k) = None ->
  let t := failed_attempts (Session.client s) intervalMs k 0 in
  initializeWithRetry_gen env maxRetries intervalMs s a 0 w
    = (Ok tt, after_calls w t (S k)) /\
  count is_attempt t = S k /\
  count (is_wait intervalMs) t = k.
Proof.
  intros Hk Hfail Hok t.
  destruct (initializeWithRetry_gen_shape env maxRetries intervalMs s a
              (Z.to_nat maxRetries) 0 w) as (k' & Hk' & Hbefore & Hlast & Hrun);
    [by rewrite Z.sub_0_r|].
  assert (k' = k) as ->.
  { destruct (Nat.lt_trichotomy k' k) as [Hlt|[Heq|Hgt]]; [|done|].
    - pose proof (Hfail k' Hlt) as Hne. apply Hlast in Hne. lia.
    - by destruct (Hbefore k Hgt). }
  rewrite Hrun, Hok. split; [done|].
  split; apply count_failed_attempts.
Qed.

Lemma initializeWithRetry_succeeds_after_witness :
  initializeWithRetry_gen slow_env 5 5000 (Session.mk 0 None) sample_account 0 sample_world
    = (Ok tt, after_calls sample_world (failed_attempts 0 5000 2 0) 3) /\
  count is_attempt (failed_attempts 0 5000 2 0) = 3%nat /\
  count (is_wait 5000) (failed_attempts 0 5000 2 0) = 2%nat.
Proof.
  apply (initializeWithRetry_succeeds_after slow_env 5 5000 (Session.mk 0 None)
           sample_account sample_world 2).
  - simpl. lia.
  - intros [|[|j]] Hj; simpl; try discriminate. lia.
  - reflexivity.
Defined.

(** X2.  In every environment the connect sequence makes at least one
    and at most [maxRetries + 1] attempts, all on the client it was
    given, with one suspension less than attempts.  It fails only when
    it has used all its attempts, and it returns what its last attempt
    returned.  It changes nothing but the trace and the call counter. *)
Theorem initializeWithRetry_bounded (env : Env) (maxRetries intervalMs : Z)
    (s : Session.t) (a : Whatsapp.t) (w : World) :
  exists k,
    let t := failed_attempts (Session.client s) intervalMs k 0 in
    let last := initialize_throws env (Session.client s) (tick w + k) in
    (k <= Z.to_nat maxRetries)%nat /\
    initializeWithRetry_gen env maxRetries intervalMs s a 0 w
      = (match last with None => Ok tt | Some e => Throw e end, after_calls w t (S k)) /\
    (last <> None -> k = Z.to_nat maxRetries) /\
    count is_attempt t = S k /\
    count (is_wait intervalMs) t = k /\
    connected_on t = replicate (S k) (Session.client s).
Proof.
  destruct (initializeWithRetry_gen_shape env maxRetries intervalMs s a
              (Z.to_nat maxRetries) 0 w) as (k & Hk & _ & Hlast & Hrun);
    [by rewrite Z.sub_0_r|].
  exists k. cbv zeta.
  destruct (count_failed_attempts (Session.client s) intervalMs k 0)
    as (Ha & Hw & _ & _ & _ & Hc & _).
  by split_and!.
Qed.

Lemma notifications_app (t t' : list Effect) :
  notifications (t ++ t') = notifications t ++ notifications t'.
Proof. unfold notifications. apply List.filter_app. Qed.

Lemma notifications_none (t : list Effect) :
  count is_notification t = 0%nat -> notifications t = [].
Proof. unfold count, notifications. apply nil_length_inv. Qed.

Lemma destroyClient_trace_reading (env : Env) (s : Session.t) (tk : nat) :
  count is_notification (destroyClient_trace env s tk) = 0%nat /\
  count is_timer (destroyClient_trace env s tk) = 0%nat /\
  count is_construction (destroyClient_trace env s tk) = 0%nat /\
  count is_attempt (destroyClient_trace env s tk) = 0%nat.
Proof. unfold destroyClient_trace. by destruct (destroy_throws env _ _). Qed.

(** ** The reconnection cycle in every environment *)

(** X3.  [reconnect] never throws, never sets a timer and never
    constructs a client, and it leaves the registry, the closure's client
    and the promise alone.  When its connect sequence succeeds it does
    not write to the account and emits no notification: the status
    stays what the disconnect left until the engine emits again.  Only
    when the sequence fails, after all its attempts, is the account
    written (DISCONNECTED, empty QR payload) and one notification
    emitted. *)
Theorem reconnect_outcome (env : Env) (w : World) :
  exists k t,
    let c := Session.client (wbot w) in
    let last := initialize_throws env c (S (tick w) + k) in
    let w' := snd (reconnect env w) in
    (k <= Z.to_nat MAX_RETRIES)%nat /\
    fst (reconnect env w) = Ok tt /\
    trace w' = trace w ++ t /\
    count is_timer t = 0%nat /\
    count is_construction t = 0%nat /\
    count is_attempt t = S k /\
    sessions w' = sessions w /\ wbot w' = wbot w /\ promise w' = promise w /\
    match last with
    | None => whatsapp w' = whatsapp w /\ notifications t = []
    | Some e =>
        k = Z.to_nat MAX_RETRIES /\
        whatsapp w' = update_status_qrcode "DISCONNECTED" "" (whatsapp w) /\
        notifications t = [IoEmit "whatsappSession" "update" (whatsapp w')]
    end.
Proof.
  rewrite reconnect_run. cbv zeta. set (w1 := after_calls w _ 1).
  destruct (initializeWithRetry_gen_shape env MAX_RETRIES RECONNECT_INTERVAL
              (wbot w) (whatsapp w) (Z.to_nat MAX_RETRIES) 0 w1)
    as (k & Hk & _ & Hlast & Hrun); [done|].
  assert (tick w1 = S (tick w)) as Htick by (subst w1; simpl; lia).
  rewrite Htick in Hlast, Hrun. unfold initializeWithRetry. rewrite Hrun.
  destruct (count_failed_attempts (Session.client (wbot w)) RECONNECT_INTERVAL k 0)
    as (Ha & _ & Hn & Ht & Hc & _).
  destruct (destroyClient_trace_reading env (wbot w) (tick w))
    as (Dn & Dt & Dc & Da).
  exists k.
  destruct (initialize_throws env (Session.client (wbot w)) (S (tick w) + k))
    as [e|] eqn:E.
  - exists (Log info (AttemptingToReconnect (sessionName w))
            :: destroyClient_trace env (wbot w) (tick w)
            ++ failed_attempts (Session.client (wbot w)) RECONNECT_INTERVAL k 0
            ++ [Log error_ (ReconnectionFailed e);
                IoEmit "whatsappSession" "update"
                  (update_status_qrcode "DISCONNECTED" "" (whatsapp w))]).
    subst w1. unfold reconnect_failed, after_calls, emit_effect, set_whatsapp.
    cbn [fst snd trace sessions wbot promise whatsapp]. split_and!; try done.
    + by rewrite <- !app_assoc.
    + by rewrite count_cons, !count_app, Dt, Ht.
    + by rewrite count_cons, !count_app, Dc, Hc.
    + rewrite count_cons, !count_app, Da, Ha. unfold count. simpl. lia.
    + by apply Hlast.
    + change (notifications (destroyClient_trace env (wbot w) (tick w)
                ++ failed_attempts (Session.client (wbot w)) RECONNECT_INTERVAL k 0
                ++ [Log error_ (ReconnectionFailed e);
                    IoEmit "whatsappSession" "update"
                      (update_status_qrcode "DISCONNECTED" "" (whatsapp w))])
              = [IoEmit "whatsappSession" "update"
                   (update_status_qrcode "DISCONNECTED" "" (whatsapp w))]).
      by rewrite !notifications_app, (notifications_none _ Dn),
        (notifications_none _ Hn).
  - exists (Log info (AttemptingToReconnect (sessionName w))
            :: destroyClient_trace env (wbot w) (tick w)
            ++ failed_attempts (Session.client (wbot w)) RECONNECT_INTERVAL k 0).
    subst w1. unfold reconnect_failed, after_calls, emit_effect, set_whatsapp.
    cbn [fst snd trace sessions wbot promise whatsapp]. split_and!; try done.
    + by rewrite <- !app_assoc.
    + by rewrite count_cons, !count_app, Dt, Ht.
    + by rewrite count_cons, !count_app, Dc, Hc.
    + rewrite count_cons, !count_app, Da, Ha. unfold count. simpl. lia.
    + change (notifications (destroyClient_trace env (wbot w) (tick w)
                ++ failed_attempts (Session.client (wbot w)) RECONNECT_INTERVAL k 0)
              = []).
      by rewrite !notifications_app, (notifications_none _ Dn),
        (notifications_none _ Hn).
Qed.

(** ** [initWbot] *)

Lemma initWbot_run (env : Env) (a : Whatsapp.t) (w : World) :
  initWbot env a w =
  let w0 := set_whatsapp a (set_promise Pending w) in
  let fail e v := (Ok tt, set_promise (Rejected e) (emit_effect (Log error_ (Caught e)) v)) in
  match getIO_throws env with
  | Some e => fail e w0
  | None =>
      let w1 := set_sessionName (Whatsapp.name a) w0 in
      match (if decide (Whatsapp.session a = "") then None
             else JSON_parse_throws env (Whatsapp.session a)) with
      | Some e => fail e w1
      | None =>
          match new_Client_throws env (Whatsapp.id a) with
          | Some e => fail e w1
          | None =>
              let s := Session.mk (next_client w) None in
              let w2 := set_wbot s (emit_effect (NewClient (next_client w)
                                                           (Whatsapp.id a))
                                      (bump_client w1)) in
              match initializeWithRetry env s a 0 w2 with
              | (Ok _, w3) => (Ok tt, w3)
              | (Throw e, w3) =>
                  (Ok tt,
                   snd (reject e (emit_effect (Log error_ (InitializationFailed e)) w3)))
              end
          end
      end
  end.
Proof.
  unfold initWbot, try_catch, bind, modify, getIO, JSON_parse, new_Client, get, logger,
    effect, reject, ret, throw. simpl.
  destruct (getIO_throws env); [done|]. simpl.
  destruct (decide (Whatsapp.session a = "")); simpl.
  - destruct (new_Client_throws env _); [done|]. simpl.
    by destruct (initializeWithRetry env _ a 0 _) as [[[]|err] w3].
  - destruct (JSON_parse_throws env _); [done|]. simpl.
    destruct (new_Client_throws env _); [done|]. simpl.
    by destruct (initializeWithRetry env _ a 0 _) as [[[]|err] w3].
Qed.

(** X4.  When the socket layer is not initialised, or the stored
    credentials of the account are not empty and do not parse,
    [initWbot] returns normally with its promise rejected with that very
    error: no client is constructed, no call is made to the engine, the
    registry is untouched, and the error is logged. *)
Theorem initWbot_rejects_before_connecting (env : Env) (a : Whatsapp.t) (w : World)
    (e : Err) :
  getIO_throws env = Some e \/
  (getIO_throws env = None /\ Whatsapp.session a <> "" /\
   JSON_parse_throws env (Whatsapp.session a) = Some e) ->
  let w' := snd (initWbot env a w) in
  fst (initWbot env a w) = Ok tt /\
  promise w' = Rejected e /\
  trace w' = trace w ++ [Log error_ (Caught e)] /\
  sessions w' = sessions w /\
  next_client w' = next_client w /\ tick w' = tick w /\ wbot w' = wbot w.
Proof.
  intros H. rewrite initWbot_run. cbv zeta.
  destruct H as [->|(-> & Hne & Hp)]; [done|].
  by rewrite decide_False, Hp by done.
Qed.

(** An environment without a socket layer, and one that cannot parse
    any credentials. *)
Lemma initWbot_rejects_before_connecting_witness :
  let env := mkEnv None (fun _ => Some (External "SyntaxError")) (fun _ _ => None)
                   (fun _ _ => None) (fun _ _ => inr []) (fun _ _ _ => inr [])
                   (fun _ _ => None) (fun _ _ => None) (fun _ => None) in
  let a := Whatsapp.mk 7 "main" "{not json" "OPENING" "" 0 in
  let w' := snd (initWbot env a blank_world) in
  fst (initWbot env a blank_world) = Ok tt /\
  promise w' = Rejected (External "SyntaxError") /\
  trace w' = [] ++ [Log error_ (Caught (External "SyntaxError"))] /\
  sessions w' = [] /\
  next_client w' = 0%nat /\ tick w' = 0%nat /\ wbot w' = Session.mk 0 None.
Proof.
  apply (initWbot_rejects_before_connecting
           (mkEnv None (fun _ => Some (External "SyntaxError")) (fun _ _ => None)
                  (fun _ _ => None) (fun _ _ => inr []) (fun _ _ _ => inr [])
                  (fun _ _ => None) (fun _ _ => None) (fun _ => None))
           (Whatsapp.mk 7 "main" "{not json" "OPENING" "" 0) blank_world
           (External "SyntaxError")).
  right. split_and!; [reflexivity | discriminate | reflexivity].
Defined.

(** X5.  When the socket layer is there, the credentials are empty or
    parse, and the constructors accept their options, [initWbot]
    constructs exactly one client, numbered as the next free one and
    without an identity, makes it the closure's client and runs the
    connect sequence on it.  It returns normally in every case.  The
    promise is left pending when the sequence succeeded (only a [ready]
    event resolves it) and is rejected with the error of the last
    attempt when the sequence failed.  The registry is not written: a
    session is registered by its first [qr] or [ready] event, not by
    [initWbot]. *)
Theorem initWbot_connects (env : Env) (a : Whatsapp.t) (w : World) :
  getIO_throws env = None ->
  Whatsapp.session a = "" \/ JSON_parse_throws env (Whatsapp.session a) = None ->
  new_Client_throws env (Whatsapp.id a) = None ->
  exists k,
    let c := next_client w in
    let last := initialize_throws env c (tick w + k) in
    let w' := snd (initWbot env a w) in
    (k <= Z.to_nat MAX_RETRIES)%nat /\
    (last <> None -> k = Z.to_nat MAX_RETRIES) /\
    fst (initWbot env a w) = Ok tt /\
    wbot w' = Session.mk c None /\
    next_client w' = S c /\
    whatsapp w' = a /\
    sessionName w' = Whatsapp.name a /\
    sessions w' = sessions w /\
    promise w' = match last with None => Pending | Some e => Rejected e end /\
    trace w' = trace w
               ++ NewClient c (Whatsapp.id a)
               :: failed_attempts c RECONNECT_INTERVAL k 0
               ++ match last with
                  | None => []
                  | Some e => [Log error_ (InitializationFailed e)]
                  end.
Proof.
  intros Hio Hparse Hnew. rewrite initWbot_run, Hio, Hnew. cbv zeta.
  assert ((if decide (Whatsapp.session a = "") then None
           else JSON_parse_throws env (Whatsapp.session a)) = None) as ->
    by (destruct (decide (Whatsapp.session a = "")); [done|by destruct Hparse]).
  set (s := Session.mk (next_client w) None). set (w2 := set_wbot s _).
  destruct (initializeWithRetry_gen_shape env MAX_RETRIES RECONNECT_INTERVAL
              s a (Z.to_nat MAX_RETRIES) 0 w2)
    as (k & Hk & _ & Hlast & Hrun); [done|].
  change (tick w2) with (tick w) in Hlast, Hrun.
  change (Session.client s) with (next_client w) in Hlast, Hrun.
  unfold initializeWithRetry. rewrite Hrun. exists k.
  destruct (initialize_throws env (next_client w) (tick w + k)) as [e|] eqn:E.
  - subst w2 s. unfold reject, modify. simpl. split_and!; try done.
    by rewrite <- !app_assoc.
  - subst w2 s. simpl. split_and!; try done.
    by rewrite <- !app_assoc, app_nil_r.
Qed.

Lemma initWbot_connects_witness :
  exists k,
    let last := initialize_throws slow_env 0 (0 + k) in
    let w' := snd (initWbot slow_env sample_account blank_world) in
    (k <= Z.to_nat MAX_RETRIES)%nat /\
    (last <> None -> k = Z.to_nat MAX_RETRIES) /\
    fst (initWbot slow_env sample_account blank_world) = Ok tt /\
    wbot w' = Session.mk 0 None /\
    next_client w' = 1%nat /\
    whatsapp w' = sample_account /\
    sessionName w' = "main" /\
    sessions w' = [] /\
    promise w' = match last with None => Pending | Some e => Rejected e end /\
    trace w' = []
               ++ NewClient 0 7
               :: failed_attempts 0 RECONNECT_INTERVAL k 0
               ++ match last with
                  | None => []
                  | Some e => [Log error_ (InitializationFailed e)]
                  end.
Proof.
  apply (initWbot_connects slow_env sample_account blank_world).
  - reflexivity.
  - left. reflexivity.
  - reflexivity.
Defined.

(** X21.  When the socket layer is there and the credentials are empty
    or parse, but the constructors of the client refuse their options,
    [initWbot] returns normally with its promise rejected with the
    error they threw: the error is logged, no client exists, the
    closure's client is not set, no call is made to the engine and the
    registry is untouched. *)
Theorem initWbot_rejects_when_construction_fails (env : Env) (a : Whatsapp.t)
    (w : World) (e : Err) :
  getIO_throws env = None ->
  Whatsapp.session a = "" \/ JSON_parse_throws env (Whatsapp.session a) = None ->
  new_Client_throws env (Whatsapp.id a) = Some e ->
  let w' := snd (initWbot env a w) in
  fst (initWbot env a w) = Ok tt /\
  promise w' = Rejected e /\
  trace w' = trace w ++ [Log error_ (Caught e)] /\
  count is_construction (trace w') = count is_construction (trace w) /\
  sessions w' = sessions w /\
  next_client w' = next_client w /\ tick w' = tick w /\ wbot w' = wbot w.
Proof.
  intros Hio Hparse Hnew. rewrite initWbot_run, Hio, Hnew. cbv zeta.
  assert ((if decide (Whatsapp.session a = "") then None
           else JSON_parse_throws env (Whatsapp.session a)) = None) as ->
    by (destruct (decide (Whatsapp.session a = "")); [done|by destruct Hparse]).
  cbn [fst snd]. split_and!; try done.
  cbn [trace set_promise emit_effect set_sessionName set_whatsapp].
  rewrite count_app. unfold count at 2. simpl. lia.
Qed.

Lemma initWbot_rejects_when_construction_fails_witness :
  let env := mkEnv None (fun _ => None) (fun _ _ => None) (fun _ _ => None)
                   (fun _ _ => inr []) (fun _ _ _ => inr [])
                   (fun _ _ => None) (fun _ _ => None)
                   (fun _ => Some (External "Invalid clientId")) in
  let w' := snd (initWbot env sample_account blank_world) in
  fst (initWbot env sample_account blank_world) = Ok tt /\
  promise w' = Rejected (External "Invalid clientId") /\
  trace w' = [] ++ [Log error_ (Caught (External "Invalid clientId"))] /\
  count is_construction (trace w') = count is_construction [] /\
  sessions w' = [] /\
  next_client w' = 0%nat /\ tick w' = 0%nat /\ wbot w' = Session.mk 0 None.
Proof.
  apply (initWbot_rejects_when_construction_fails
           (mkEnv None (fun _ => None) (fun _ _ => None) (fun _ _ => None)
                  (fun _ _ => inr []) (fun _ _ _ => inr [])
                  (fun _ _ => None) (fun _ _ => None)
                  (fun _ => Some (External "Invalid clientId")))
           sample_account blank_world (External "Invalid clientId")).
  - reflexivity.
  - left. reflexivity.
  - reflexivity.
Defined.

(** ** What each event does to the account, and what it announces *)

Lemma on_ready_after (env : Env) (w : World) :
  exists t k,
    Forall sync_effect t /\
    let v := after_calls (ready_before_sync w) t k in
    snd (on_ready env w) = v \/
    (promise v = Pending /\
     snd (on_ready env w) = set_promise (Resolved (wbot (ready_before_sync w))) v).
Proof.
  rewrite on_ready_run. cbv zeta.
  destruct (syncUnreadMessages_framed env (wbot (ready_before_sync w))
              (ready_before_sync w)) as (t & k & Hw & Ht).
  exists t, k. split; [done|].
  destruct (syncUnreadMessages env (wbot (ready_before_sync w)) (ready_before_sync w))
    as [[[]|e] w2]; simpl in Hw; subst w2; [|by left].
  unfold resolve, modify. cbn [fst snd].
  destruct (promise (after_calls (ready_before_sync w) t k)) eqn:E; [right|left..];
    done.
Qed.

Lemma ready_before_sync_account (w : World) :
  whatsapp (ready_before_sync w)
    = update_status_qrcode_retries "CONNECTED" "" 0 (whatsapp w) /\
  exists c,
    trace (ready_before_sync w)
    = trace w ++ [Log info (SessionReady (sessionName w));
                  IoEmit "whatsappSession" "update"
                    (update_status_qrcode_retries "CONNECTED" "" 0 (whatsapp w));
                  SendPresenceAvailable c].
Proof.
  unfold ready_before_sync. cbv zeta.
  set (w0 := emit_effect (IoEmit _ _ _) _).
  destruct (register_world_facts w0) as (_ & Ha & _ & Htr & _).
  cbn [whatsapp trace emit_effect]. rewrite Ha, Htr. subst w0. simpl.
  split; [done|]. eexists. by rewrite <- !app_assoc.
Qed.

(** X6.  The account after an event, whatever the environment does and
    whether or not the handler fails: [qr] writes the payload, the status
    ["qrcode"] and a retry counter of 0; [authenticated] writes nothing;
    [auth_failure] writes DISCONNECTED and the retry counter, and clears
    the credentials, not the QR payload, when the counter exceeded 1;
    [disconnected] writes DISCONNECTED and clears the QR payload, keeping
    counter and credentials; [ready] writes CONNECTED, an empty QR
    payload and a counter of 0.  The identity and the name are never
    written. *)
Theorem account_after_event (env : Env) (ev : Event) (w : World) :
  let a := whatsapp w in
  whatsapp (emit env ev w) =
  match ev with
  | qr code =>
      Whatsapp.mk (Whatsapp.id a) (Whatsapp.name a) (Whatsapp.session a)
                  "qrcode" code 0
  | authenticated => a
  | auth_failure _ =>
      if decide (Whatsapp.retries a > 1)
      then Whatsapp.mk (Whatsapp.id a) (Whatsapp.name a) ""
                       "DISCONNECTED" (Whatsapp.qrcode a) 1
      else Whatsapp.mk (Whatsapp.id a) (Whatsapp.name a) (Whatsapp.session a)
                       "DISCONNECTED" (Whatsapp.qrcode a) (Whatsapp.retries a + 1)
  | disconnected _ =>
      Whatsapp.mk (Whatsapp.id a) (Whatsapp.name a) (Whatsapp.session a)
                  "DISCONNECTED" "" (Whatsapp.retries a)
  | ready =>
      Whatsapp.mk (Whatsapp.id a) (Whatsapp.name a) (Whatsapp.session a)
                  "CONNECTED" "" 0
  end.
Proof.
  destruct ev; unfold emit, handler; cbv zeta.
  - unfold on_qr. straight_line. rewrite registerIfAbsent_run. simpl.
    by destruct (register_world_facts
                   (set_whatsapp (update_qr code (whatsapp w))
                      (emit_effect (QrGenerate code)
                         (emit_effect (Log info (SessionColon (sessionName w))) w))))
      as (_ & -> & _).
  - done.
  - unfold on_auth_failure. straight_line.
    by destruct (decide (Whatsapp.retries (whatsapp w) > 1)).
  - done.
  - destruct (on_ready_after env w) as (t & k & _ & [->| [_ ->]]);
      cbn [whatsapp after_calls set_promise];
      by destruct (ready_before_sync_account w) as (-> & _).
Qed.

(** X7.  Every handler but the one of [authenticated] emits exactly one
    status notification, on [whatsappSession] with action [update], and
    the account it carries is the account as the handler leaves it;
    [authenticated] emits none.  This holds for [ready] also when its
    sync fails. *)
Theorem one_notification_per_event (env : Env) (ev : Event) (w : World) :
  let w' := emit env ev w in
  exists t,
    trace w' = trace w ++ t /\
    notifications t =
    match ev with
    | authenticated => []
    | _ => [IoEmit "whatsappSession" "update" (whatsapp w')]
    end.
Proof.
  destruct ev; unfold emit, handler; cbv zeta.
  - unfold on_qr. straight_line. rewrite registerIfAbsent_run. simpl.
    destruct (register_world_facts
                (set_whatsapp (update_qr code (whatsapp w))
                   (emit_effect (QrGenerate code)
                      (emit_effect (Log info (SessionColon (sessionName w))) w))))
      as (_ & -> & _ & -> & _).
    simpl. eexists. rewrite <- !app_assoc. split; [reflexivity|done].
  - eexists. split; [reflexivity|done].
  - unfold on_auth_failure. straight_line.
    destruct (decide (Whatsapp.retries (whatsapp w) > 1)); simpl;
      (eexists; rewrite <- !app_assoc; split; [reflexivity|done]).
  - unfold on_disconnected. straight_line.
    eexists. rewrite <- !app_assoc. split; [reflexivity|done].
  - destruct (ready_before_sync_account w) as (Ha & c & Htr).
    destruct (on_ready_after env w) as (t & k & Ht & [->| [_ ->]]);
      cbn [whatsapp trace after_calls set_promise]; rewrite Ha, Htr;
      (eexists; rewrite <- !app_assoc; split; [reflexivity|]);
      rewrite !notifications_app,
        (notifications_none t (sync_effect_reading t Ht)); done.
Qed.

(** ** The registry as a table: register, look up, remove *)

Lemma lookup_session_at (i : Z) (l : list Session.t) :
  (findIndex i l = -1 /\ lookup_session i l = None) \/
  (exists (k : nat) (s : Session.t),
     list_find (fun s => Session.id s = Some i) l = Some (k, s) /\
     findIndex i l = Z.of_nat k /\ at_index l (findIndex i l) = Some s /\
     lookup_session i l = Some s /\ l !! k = Some s /\ Session.id s = Some i).
Proof.
  unfold findIndex, lookup_session, at_index.
  destruct (list_find _ l) as [[k s]|] eqn:E; [right|by left].
  exists k, s. pose proof E as (Hk & Hs & _)%list_find_Some.
  rewrite decide_False by lia. by rewrite Nat2Z.id.
Qed.

Lemma getWbot_run (i : Z) (w : World) :
  getWbot i w =
  (match lookup_session i (sessions w) with
   | Some s => Ok (Some s)
   | None => Throw (AppError "ERR_WAPP_NOT_INITIALIZED")
   end, w).
Proof.
  unfold getWbot, bind, get, ret, throw.
  destruct (lookup_session_at i (sessions w))
    as [(Hi & ->)|(k & s & _ & Hi & Hat & -> & _)].
  - by rewrite decide_True.
  - rewrite decide_False by lia. by rewrite Hat.
Qed.

Lemma removeWbot_start_run (env : Env) (i : Z) (w : World) :
  removeWbot_start env i w =
  match list_find (fun s => Session.id s = Some i) (sessions w) with
  | None => (Ok None, w)
  | Some (k, s) =>
      (Ok (Some (mkRemoval (Z.of_nat k)
                           (destroy_throws env (Session.client s) (tick w)))),
       after_calls w [ClientDestroy (Session.client s)] 1)
  end.
Proof.
  destruct (lookup_session_at i (sessions w))
    as [(Hi & Hl)|(k & s & Hf & Hi & _ & _ & Hk & _)].
  - rewrite (removeWbot_start_absent env i w Hi). unfold lookup_session in Hl.
    by destruct (list_find _ (sessions w)).
  - rewrite Hf.
    destruct (removeWbot_start_found env i w) as (k' & s' & Hi' & Hk' & _ & _ & ->);
      [lia|].
    assert (k' = k) as -> by lia. by assert (s' = s) as -> by congruence.
Qed.

Lemma removeWbot_run (env : Env) (i : Z) (w : World) :
  removeWbot env i w =
  (Ok tt,
   match list_find (fun s => Session.id s = Some i) (sessions w) with
   | None => w
   | Some (k, s) =>
       set_sessions (delete k (sessions w))
                    (after_calls w (destroyClient_trace env s (tick w)) 1)
   end).
Proof.
  unfold removeWbot, bind. rewrite removeWbot_start_run.
  destruct (list_find _ (sessions w)) as [[k s]|]; [|done].
  rewrite removeWbot_resume_run. cbn [found_at destroy_answer]. f_equal.
  unfold destroyClient_trace.
  destruct (destroy_throws env (Session.client s) (tick w)); cbv zeta;
    rewrite ?after_calls_log, ?after_calls_twice;
    cbn [sessions after_calls]; by rewrite splice1_found.
Qed.

Lemma lookup_session_app (i : Z) (l l' : list Session.t) :
  lookup_session i (l ++ l') =
  match lookup_session i l with
  | Some s => Some s
  | None => lookup_session i l'
  end.
Proof.
  unfold lookup_session.
  destruct (list_find (fun s => Session.id s = Some i) l) as [[k s]|] eqn:E.
  - by rewrite (list_find_app_l _ _ _ _ _ E).
  - rewrite (list_find_app_r _ _ _ E). simpl.
    by destruct (list_find _ l') as [[k' s']|].
Qed.

Lemma lookup_session_registered (i : Z) (l : list Session.t) :
  lookup_session i l = None <-> registered i l = 0%nat.
Proof.
  destruct (lookup_session_at i l) as [(Hi & ->)|(k & s & _ & Hi & _ & -> & _)].
  - split; [intros _; by apply registered_absent | done].
  - split; [done|]. intros H0.
    assert (findIndex i l <> -1) as Hne%registered_present by lia. lia.
Qed.

Lemma lookup_session_delete_other (i j : Z) (k : nat) (s : Session.t)
    (l : list Session.t) :
  l !! k = Some s -> Session.id s = Some i -> i <> j ->
  lookup_session j (delete k l) = lookup_session j l.
Proof.
  intros Hk Hs Hij. rewrite delete_take_drop.
  rewrite <- (take_drop_middle l k s Hk) at 3.
  rewrite !lookup_session_app.
  destruct (lookup_session j (take k l)); [done|].
  change (s :: drop (S k) l) with ([s] ++ drop (S k) l).
  rewrite lookup_session_app.
  assert (lookup_session j [s] = None) as ->; [|done].
  unfold lookup_session. simpl. rewrite decide_False; [done|congruence].
Qed.

Lemma registered_delete_other (i j : Z) (k : nat) (s : Session.t)
    (l : list Session.t) :
  l !! k = Some s -> Session.id s = Some i -> i <> j ->
  registered j (delete k l) = registered j l.
Proof.
  intros Hk Hs Hij. rewrite delete_take_drop.
  rewrite <- (take_drop_middle l k s Hk) at 3.
  rewrite !registered_app.
  change (s :: drop (S k) l) with ([s] ++ drop (S k) l).
  rewrite registered_app.
  assert (registered j [s] = 0%nat) as ->; [|lia].
  unfold registered. rewrite filter_cons_False; [done|congruence].
Qed.

(** X8.  Register, then look up: after a [qr] or a [ready] event
    [getWbot] on the account's identity succeeds and returns a session
    carrying that identity.  It is the session that was registered
    before the event when there was one (the first writer wins), and the
    closure's client tagged with the identity otherwise.  This holds for
    [ready] also when its sync fails. *)
Theorem registered_then_found (env : Env) (ev : Event) (w : World) :
  registers ev = true ->
  let i := Whatsapp.id (whatsapp w) in
  let w' := emit env ev w in
  exists s,
    getWbot i w' = (Ok (Some s), w') /\
    Session.id s = Some i /\
    s = match lookup_session i (sessions w) with
        | Some s0 => s0
        | None => Session.mk (Session.client (wbot w)) (Some i)
        end.
Proof.
  intros Hev i w'. rewrite getWbot_run.
  destruct (emit_registry env ev w) as (Hs & _). fold w' in Hs.
  rewrite Hev in Hs. rewrite Hs. unfold register. fold i.
  destruct (lookup_session_at i (sessions w))
    as [(Hi & Hl)|(k & s & _ & Hi & _ & Hl & _ & Hid)]; rewrite Hl.
  - rewrite decide_True by done. rewrite lookup_session_app, Hl.
    unfold lookup_session. simpl. rewrite decide_True by done. simpl. eauto.
  - rewrite decide_False by lia. rewrite Hl. eauto.
Qed.

Lemma registered_then_found_witness :
  let w' := emit calm_env (qr "XYZ") sample_world in
  exists s,
    getWbot 7 w' = (Ok (Some s), w') /\
    Session.id s = Some 7 /\
    s = match lookup_session 7 [] with
        | Some s0 => s0
        | None => Session.mk 0 (Some 7)
        end.
Proof.
  apply (registered_then_found calm_env (qr "XYZ") sample_world). reflexivity.
Defined.

Lemma removeWbot_resume_at (env : Env) (i : Z) (w w1 : World) (p : Removal) :
  fst (removeWbot_start env i w) = Ok (Some p) ->
  sessions w `prefix_of` sessions w1 ->
  exists (k : nat) (s : Session.t),
    sessions w1 !! k = Some s /\ Session.id s = Some i /\
    fst (removeWbot_resume p w1) = Ok tt /\
    sessions (snd (removeWbot_resume p w1)) = delete k (sessions w1).
Proof.
  rewrite removeWbot_start_run. intros Hstart [extra Hgrown].
  destruct (list_find _ (sessions w)) as [[k s]|] eqn:E; [|done].
  apply list_find_Some in E as (Hk & Hs & _).
  simpl in Hstart. injection Hstart as <-.
  exists k, s. rewrite removeWbot_resume_run. cbn [fst snd found_at destroy_answer].
  split_and!; try done.
  - rewrite Hgrown. by apply lookup_app_l_Some.
  - destruct (destroy_throws env _ _); simpl; by rewrite splice1_found.
Qed.

(** X9.  Remove, then look up.  Let a call of [removeWbot] for a
    registered identity be suspended at its [await], and let it be
    resumed in a world whose registry still begins with the entries it
    saw (entries may have been appended meanwhile, none removed) and
    holds the identity at most once.  Then the resumed call returns
    normally, the identity is no longer found by [getWbot], and a
    further [removeWbot] for it changes nothing at all.  A call that
    nothing interrupts is the case where it is resumed at once. *)
Theorem removed_then_absent (env : Env) (i : Z) (w w1 : World) (p : Removal) :
  fst (removeWbot_start env i w) = Ok (Some p) ->
  sessions w `prefix_of` sessions w1 ->
  (registered i (sessions w1) <= 1)%nat ->
  let w' := snd (removeWbot_resume p w1) in
  fst (removeWbot_resume p w1) = Ok tt /\
  getWbot i w' = (Throw (AppError "ERR_WAPP_NOT_INITIALIZED"), w') /\
  removeWbot env i w' = (Ok tt, w') /\
  removeWbot env i w
  = (Ok tt, snd (removeWbot_resume p (snd (removeWbot_start env i w)))).
Proof.
  intros Hstart Hgrown Hone w'.
  destruct (removeWbot_resume_at env i w w1 p Hstart Hgrown)
    as (k & s & Hk & Hid & Hok & Hdel).
  assert (lookup_session i (sessions w') = None) as Hnone.
  { subst w'. rewrite Hdel. apply lookup_session_registered.
    rewrite (registered_delete i _ k s Hk Hid). lia. }
  split_and!; try done.
  - by rewrite getWbot_run, Hnone.
  - rewrite removeWbot_run. unfold lookup_session in Hnone.
    by destruct (list_find _ (sessions w')).
  - unfold removeWbot, bind.
    destruct (removeWbot_start env i w) as [[[q|]|e] w0]; simpl in Hstart; try done.
    injection Hstart as ->. cbn [snd].
    rewrite removeWbot_resume_run. done.
Qed.

Lemma removed_then_absent_witness :
  let w := set_sessions sample_registry sample_world in
  let p := mkRemoval 1 (Some (External "gone")) in
  let w1 := emit broken_env (qr "XYZ") (snd (removeWbot_start broken_env 7 w)) in
  let w' := snd (removeWbot_resume p w1) in
  fst (removeWbot_resume p w1) = Ok tt /\
  getWbot 7 w' = (Throw (AppError "ERR_WAPP_NOT_INITIALIZED"), w') /\
  removeWbot broken_env 7 w' = (Ok tt, w') /\
  removeWbot broken_env 7 w
  = (Ok tt, snd (removeWbot_resume p (snd (removeWbot_start broken_env 7 w)))).
Proof.
  apply (removed_then_absent broken_env 7
           (set_sessions sample_registry sample_world)
           (emit broken_env (qr "XYZ")
              (snd (removeWbot_start broken_env 7
                      (set_sessions sample_registry sample_world))))
           (mkRemoval 1 (Some (External "gone")))).
  - reflexivity.
  - by exists [].
  - vm_compute. lia.
Defined.

(** X10.  Under the same condition, that the registry still begins with
    the entries the call saw when it was suspended, a resumed
    [removeWbot] does not disturb the other identities: for every other
    identity [getWbot] returns what it returned before the resumption,
    and the identity is registered as often as before.  (Without the
    condition this fails: see the overlapping calls under C8.) *)
Theorem removeWbot_other_identity (env : Env) (i j : Z) (w w1 : World) (p : Removal) :
  i <> j ->
  fst (removeWbot_start env i w) = Ok (Some p) ->
  sessions w `prefix_of` sessions w1 ->
  let w' := snd (removeWbot_resume p w1) in
  fst (getWbot j w') = fst (getWbot j w1) /\
  registered j (sessions w') = registered j (sessions w1).
Proof.
  intros Hij Hstart Hgrown w'.
  destruct (removeWbot_resume_at env i w w1 p Hstart Hgrown)
    as (k & s & Hk & Hid & _ & Hdel).
  rewrite !getWbot_run. cbn [fst]. subst w'. rewrite Hdel.
  by rewrite (lookup_session_delete_other i j k s),
    (registered_delete_other i j k s).
Qed.

Lemma removeWbot_other_identity_witness :
  let w := set_sessions sample_registry sample_world in
  let p := mkRemoval 0 (Some (External "gone")) in
  let w1 := emit broken_env (qr "XYZ") (snd (removeWbot_start broken_env 3 w)) in
  let w' := snd (removeWbot_resume p w1) in
  fst (getWbot 7 w') = fst (getWbot 7 w1) /\
  registered 7 (sessions w') = registered 7 (sessions w1).
Proof.
  apply (removeWbot_other_identity broken_env 3 7
           (set_sessions sample_registry sample_world)
           (emit broken_env (qr "XYZ")
              (snd (removeWbot_start broken_env 3
                      (set_sessions sample_registry sample_world))))
           (mkRemoval 0 (Some (External "gone")))).
  - discriminate.
  - reflexivity.
  - by exists [].
Defined.

(** X22.  What [removeWbot] keeps under every interleaving: neither of
    its stretches ever throws, whatever the engine answers and however
    stale the index it is resumed with; for an identity that is not
    registered the call does nothing and does not even suspend; and a
    resumed call removes at most one entry, writes neither the account
    nor the promise, and leaves in the trace only the log line of a
    failed destroy. *)
Theorem removeWbot_never_throws (env : Env) (i : Z) (w v : World) (p : Removal) :
  (exists r, fst (removeWbot_start env i w) = Ok r) /\
  fst (removeWbot_resume p v) = Ok tt /\
  fst (removeWbot env i w) = Ok tt /\
  (Forall (fun s => Session.id s <> Some i) (sessions w) ->
   removeWbot_start env i w = (Ok None, w) /\ removeWbot env i w = (Ok tt, w)) /\
  let v' := snd (removeWbot_resume p v) in
  (length (sessions v) <= S (length (sessions v')))%nat /\
  whatsapp v' = whatsapp v /\ promise v' = promise v /\
  trace v' = trace v ++ match destroy_answer p with
                        | None => []
                        | Some e => [Log error_ (ErrorDestroyingClient e)]
                        end.
Proof.
  cbv zeta. split_and!.
  - rewrite removeWbot_start_run.
    destruct (list_find _ (sessions w)) as [[k s]|]; eauto.
  - by rewrite removeWbot_resume_run.
  - by rewrite removeWbot_run.
  - intros Habs%findIndex_absent. unfold removeWbot, bind.
    by rewrite (removeWbot_start_absent env i w Habs).
  - destruct (removeWbot_resume_sessions p v) as [k ->].
    rewrite delete_take_drop, length_app, length_take, length_drop. lia.
  - rewrite removeWbot_resume_run. cbn [snd]. by destruct (destroy_answer p).
  - rewrite removeWbot_resume_run. cbn [snd]. by destruct (destroy_answer p).
  - rewrite removeWbot_resume_run. cbn [snd].
    destruct (destroy_answer p); simpl; [done|by rewrite app_nil_r].
Qed.

Lemma removeWbot_never_throws_witness :
  let w := set_sessions sample_registry sample_world in
  let p := mkRemoval 5 (Some (External "gone")) in
  (exists r, fst (removeWbot_start broken_env 5 w) = Ok r) /\
  fst (removeWbot_resume p w) = Ok tt /\
  fst (removeWbot broken_env 5 w) = Ok tt /\
  (Forall (fun s => Session.id s <> Some 5) (sessions w) ->
   removeWbot_start broken_env 5 w = (Ok None, w) /\
   removeWbot broken_env 5 w = (Ok tt, w)) /\
  let v' := snd (removeWbot_resume p w) in
  (length (sessions w) <= S (length (sessions v')))%nat /\
  whatsapp v' = whatsapp w /\ promise v' = promise w /\
  trace v' = trace w ++ match destroy_answer p with
                        | None => []
                        | Some e => [Log error_ (ErrorDestroyingClient e)]
                        end.
Proof.
  apply (removeWbot_never_throws broken_env 5
           (set_sessions sample_registry sample_world)
           (set_sessions sample_registry sample_world)
           (mkRemoval 5 (Some (External "gone")))).
Defined.

(** ** What survives every step *)

Lemma run_snoc (env : Env) (steps : list Step) (s : Step) (w : World) :
  run env (steps ++ [s]) w = step env s (run env steps w).
Proof. unfold run. by rewrite foldl_app. Qed.

Lemma step_registry_grows (env : Env) (s : Step) (w : World) :
  is_removeWbot_called s = false ->
  sessions w `prefix_of` sessions (step env s w).
Proof.
  intros Hs. destruct s as [ev|[c]|a|i|i|p]; simpl; [| | |done| |done].
  - destruct (emit_registry env ev w) as (-> & _).
    destruct (registers ev); [|done]. unfold register.
    destruct (decide (findIndex _ _ = -1)); [by apply prefix_app_r | done].
  - by destruct (reconnect_same_client env w) as (_ & _ & _ & _ & _ & _ & -> & _).
  - by rewrite initWbot_keeps_registry.
  - by rewrite removeWbot_start_sessions.
Qed.

(** X11.  A registered session stays the answer of [getWbot] for its
    identity through every event, timer and [initWbot] call: only
    [removeWbot] can change what a lookup returns.  Later events for the
    same identity, from whichever client, do not replace it. *)
Theorem lookup_stable (env : Env) (steps : list Step) (j : Z) (s : Session.t)
    (w : World) :
  Forall (fun st => is_removeWbot_called st = false) steps ->
  fst (getWbot j w) = Ok (Some s) ->
  fst (getWbot j (run env steps w)) = Ok (Some s).
Proof.
  intros Hsteps. rewrite !getWbot_run. cbn [fst]. intros Hfound.
  assert (lookup_session j (sessions w) = Some s) as Hl
    by (destruct (lookup_session j (sessions w)); congruence).
  clear Hfound.
  assert (sessions w `prefix_of` sessions (run env steps w)) as [extra ->].
  { induction steps as [|st steps IH] using rev_ind; [done|].
    apply Forall_app in Hsteps as [Hsteps [Hst _]%Forall_cons].
    rewrite run_snoc. etransitivity; [by apply IH|]. by apply step_registry_grows. }
  by rewrite lookup_session_app, Hl.
Qed.

Lemma lookup_stable_witness :
  let w := set_sessions sample_registry sample_world in
  let steps := [emitted (qr "XYZ"); emitted (disconnected "NAVIGATION");
                timer_due (reconnectCb 0); emitted ready;
                initWbot_called sample_account; emitted ready] in
  fst (getWbot 7 (run calm_env steps w)) = Ok (Some (Session.mk 0 (Some 7))).
Proof.
  apply (lookup_stable calm_env
           [emitted (qr "XYZ"); emitted (disconnected "NAVIGATION");
            timer_due (reconnectCb 0); emitted ready;
            initWbot_called sample_account; emitted ready]
           7 (Session.mk 0 (Some 7)) (set_sessions sample_registry sample_world)).
  - repeat constructor.
  - reflexivity.
Defined.

Lemma step_promise_settled (env : Env) (s : Step) (w : World) :
  is_initWbot_called s = false ->
  promise w <> Pending ->
  promise (step env s w) = promise w.
Proof.
  intros Hs Hp. destruct s as [ev|[c]|a|i|i|p]; simpl; [| | done | | |].
  - destruct ev; try (by apply emit_other_promise).
    unfold emit, handler.
    destruct (ready_before_sync_facts w) as (Hrb & _).
    destruct (on_ready_after env w) as (t & k & _ & [->| [Hpend _]]).
    + by cbn [promise after_calls].
    + cbn [promise after_calls] in Hpend. congruence.
  - by destruct (reconnect_same_client env w) as (_ & _ & _ & _ & _ & _ & _ & -> & _).
  - rewrite removeWbot_run. cbn [snd].
    by destruct (list_find _ (sessions w)) as [[k s]|].
  - rewrite removeWbot_start_run.
    by destruct (list_find _ (sessions w)) as [[k s]|].
  - rewrite removeWbot_resume_run. cbn [snd]. by destruct (destroy_answer p).
Qed.

(** X12.  The promise of an [initWbot] call settles at most once: once
    it is resolved or rejected, no event, timer or [removeWbot] call
    changes it.  In particular a second [ready] event does not resolve
    it again with another value. *)
Theorem promise_settles_once (env : Env) (steps : list Step) (w : World) :
  Forall (fun st => is_initWbot_called st = false) steps ->
  promise w <> Pending ->
  promise (run env steps w) = promise w.
Proof.
  intros Hsteps Hp.
  induction steps as [|st steps IH] using rev_ind; [done|].
  apply Forall_app in Hsteps as [Hsteps [Hst _]%Forall_cons].
  rewrite run_snoc, step_promise_settled; [by apply IH | done | by rewrite IH].
Qed.

Lemma promise_settles_once_witness :
  let w := emit calm_env ready (snd (initWbot calm_env sample_account blank_world)) in
  let steps := [emitted (disconnected "NAVIGATION"); timer_due (reconnectCb 0);
                emitted ready; removeWbot_called 7; emitted ready] in
  promise (run calm_env steps w) = promise w.
Proof.
  apply (promise_settles_once calm_env
           [emitted (disconnected "NAVIGATION"); timer_due (reconnectCb 0);
            emitted ready; removeWbot_called 7; emitted ready]
           (emit calm_env ready (snd (initWbot calm_env sample_account blank_world)))).
  - repeat constructor.
  - vm_compute. discriminate.
Defined.

(** ** The retry counter of the account *)

Lemma emit_retries_session (env : Env) (ev : Event) (w : World) :
  let r := Whatsapp.retries (whatsapp w) in
  Whatsapp.retries (whatsapp (emit env ev w)) =
    match ev with
    | qr _ | ready => 0
    | authenticated | disconnected _ => r
    | auth_failure _ => (if decide (r > 1) then 0 else r) + 1
    end /\
  Whatsapp.session (whatsapp (emit env ev w)) =
    match ev with
    | auth_failure _ => if decide (r > 1) then "" else Whatsapp.session (whatsapp w)
    | _ => Whatsapp.session (whatsapp w)
    end.
Proof.
  destruct ev; unfold emit, handler; cbv zeta.
  - unfold on_qr. straight_line. rewrite registerIfAbsent_run. simpl.
    by destruct (register_world_facts
                   (set_whatsapp (update_qr code (whatsapp w))
                      (emit_effect (QrGenerate code)
                         (emit_effect (Log info (SessionColon (sessionName w))) w))))
      as (_ & -> & _).
  - done.
  - unfold on_auth_failure. straight_line.
    by destruct (decide (Whatsapp.retries (whatsapp w) > 1)).
  - done.
  - destruct (on_ready_after env w) as (t & k & _ & [->| [_ ->]]);
      cbn [whatsapp after_calls set_promise];
      by destruct (ready_before_sync_account w) as (-> & _).
Qed.




(** X14.  Three authentication failures in a row always clear the
    stored credentials of an account whose retry counter is not
    negative, so that the next connection starts from a new QR code.
    Two may not be enough: from a counter of 0 the first two failures
    keep the credentials. *)
Theorem credentials_cleared_by_third_failure (env : Env) (m1 m2 m3 : string)
    (w : World) :
  0 <= Whatsapp.retries (whatsapp w) ->
  Whatsapp.session
    (whatsapp (emit_all env [auth_failure m1; auth_failure m2; auth_failure m3] w)) = ""
  /\
  (Whatsapp.retries (whatsapp w) = 0 ->
   Whatsapp.session (whatsapp (emit_all env [auth_failure m1; auth_failure m2] w))
   = Whatsapp.session (whatsapp w)).
Proof.
  intros Hr. unfold emit_all. simpl.
  set (w1 := emit env (auth_failure m1) w).
  set (w2 := emit env (auth_failure m2) w1).
  destruct (emit_retries_session env (auth_failure m1) w) as (R1 & S1).
  destruct (emit_retries_session env (auth_failure m2) w1) as (R2 & S2).
  destruct (emit_retries_session env (auth_failure m3) w2) as (_ & S3).
  fold w1 in R1, S1. fold w2 in R2, S2. cbv zeta in *.
  split.
  - rewrite S3, S2, S1, R2, R1.
    repeat (destruct (decide (_ > 1)); try done; try lia).
  - intros H0. rewrite S2, S1, R1, H0.
    repeat (destruct (decide (_ > 1)); try done; try lia).
Qed.

Lemma credentials_cleared_by_third_failure_witness :
  let w := set_whatsapp (Whatsapp.mk 7 "main" "{}" "CONNECTED" "" 0) sample_world in
  Whatsapp.session
    (whatsapp (emit_all calm_env [auth_failure "a"; auth_failure "b"; auth_failure "c"]
                        w)) = ""
  /\
  (Whatsapp.retries (whatsapp w) = 0 ->
   Whatsapp.session (whatsapp (emit_all calm_env [auth_failure "a"; auth_failure "b"] w))
   = Whatsapp.session (whatsapp w)).
Proof.
  apply (credentials_cleared_by_third_failure calm_env "a" "b" "c"
           (set_whatsapp (Whatsapp.mk 7 "main" "{}" "CONNECTED" "" 0) sample_world)).
  simpl. lia.
Defined.

(** ** The unread-history sync *)

Lemma syncUnreadMessages_loop (env : Env) (s : Session.t) :
  syncUnreadMessages env s
  = (chats <- client_getChats env s ;; for_of chats (sync_chat env s)).
Proof. reflexivity. Qed.

Lemma all_returned_app (env : Env) (tk : nat) (t1 t2 : list Effect) :
  all_returned env tk (t1 ++ t2) <->
  all_returned env tk t1 /\ all_returned env (tk + length t1) t2.
Proof.
  revert tk. induction t1 as [|e t1 IH]; intros tk; simpl.
  - rewrite Nat.add_0_r. tauto.
  - rewrite IH. replace (S tk + length t1)%nat with (tk + S (length t1))%nat by lia.
    tauto.
Qed.

Lemma calls_only_ret {A} (env : Env) (a : A) : calls_only env (ret a).
Proof. intros w. exists []. simpl. by rewrite after_calls_nothing. Qed.

Lemma calls_only_call (env : Env) (e : Effect) (ans : nat -> option Err) :
  (forall tk, answer env e tk = ans tk) -> calls_only env (call e ans).
Proof.
  intros He w. exists [e]. unfold call. specialize (He (tick w)).
  destruct (ans (tick w)) as [err|]; simpl; rewrite after_calls_step; split; try done.
  exists [], e. simpl. by rewrite Nat.add_0_r.
Qed.

Lemma calls_only_call_val {A} (env : Env) (e : Effect) (ans : nat -> Err + A) :
  (forall tk, answer env e tk
              = match ans tk with inl err => Some err | inr _ => None end) ->
  calls_only env (call_val e ans).
Proof.
  intros He w. exists [e]. unfold call_val. specialize (He (tick w)).
  destruct (ans (tick w)) as [err|a]; simpl; rewrite after_calls_step; split; try done.
  exists [], e. simpl. by rewrite Nat.add_0_r.
Qed.

Lemma calls_only_bind {A B} (env : Env) (m : M A) (k : A -> M B) :
  calls_only env m -> (forall a, calls_only env (k a)) -> calls_only env (bind m k).
Proof.
  intros Hm Hk w. unfold bind. destruct (Hm w) as (t & Hw & Ho).
  destruct (m w) as [[a|e] w1]; simpl in Hw, Ho; subst w1; [|by exists t].
  destruct (Hk a (after_calls w t (length t))) as (t' & Hw' & Ho').
  exists (t ++ t'). rewrite Hw', after_calls_twice, length_app. split; [done|].
  cbn [tick after_calls] in Ho'.
  destruct (k a _) as [[b|e] w2]; simpl in Ho' |- *.
  - by apply all_returned_app.
  - destruct Ho' as (t0 & f & -> & Hall & Hans).
    exists (t ++ t0), f. rewrite app_assoc, length_app, Nat.add_assoc.
    split_and!; try done. by apply all_returned_app.
Qed.

Lemma calls_only_for_of {A} (env : Env) (l : list A) (body : A -> M unit) :
  (forall x, calls_only env (body x)) -> calls_only env (for_of l body).
Proof.
  intros Hbody. induction l as [|x l IH]; simpl.
  - apply calls_only_ret.
  - apply calls_only_bind; [apply Hbody | intros _; apply IH].
Qed.

Lemma sync_chat_calls_only (env : Env) (s : Session.t) (chat : Chat) :
  calls_only env (sync_chat env s chat).
Proof.
  unfold sync_chat. destruct (decide (unreadCount chat > 0)); [|apply calls_only_ret].
  apply calls_only_bind; [by apply calls_only_call_val|]. intros msgs.
  apply calls_only_bind; [|intros _; by apply calls_only_call].
  apply calls_only_for_of. intros msg. by apply calls_only_call.
Qed.

(** X15.  The sync does nothing but call the engine and the message
    pipeline.  It stops at the first call that fails and fails with the
    error of that call, so that a failure in one conversation leaves the
    conversations after it unsynchronised; when it returns normally
    every call it made had returned normally. *)
Theorem sync_stops_at_first_failure (env : Env) (s : Session.t) (w : World) :
  exists t,
    snd (syncUnreadMessages env s w) = after_calls w t (length t) /\
    Forall sync_effect t /\
    match fst (syncUnreadMessages env s w) with
    | Ok _ => all_returned env (tick w) t
    | Throw err =>
        exists t0 f, t = t0 ++ [f] /\ all_returned env (tick w) t0 /\
                     answer env f (tick w + length t0) = Some err
    end.
Proof.
  assert (calls_only env (syncUnreadMessages env s)) as Hsync.
  { rewrite syncUnreadMessages_loop.
    apply calls_only_bind; [by apply calls_only_call_val|]. intros chats.
    apply calls_only_for_of. intros chat. apply sync_chat_calls_only. }
  destruct (Hsync w) as (t & Hw & Ho).
  destruct (syncUnreadMessages_framed env s w) as (t' & k & Hw' & Ht').
  assert (t' = t) as ->.
  { rewrite Hw in Hw'. apply (f_equal trace) in Hw'. simpl in Hw'.
    by apply app_inv_head in Hw'. }
  exists t. unfold outcome in Ho. by split_and!.
Qed.

Lemma seen_chats_app (t t' : list Effect) :
  seen_chats (t ++ t') = seen_chats t ++ seen_chats t'.
Proof. apply omap_app. Qed.

Lemma fetches_app (t t' : list Effect) :
  fetches (t ++ t') = fetches t ++ fetches t'.
Proof. apply omap_app. Qed.

Lemma handled_app (t t' : list Effect) :
  handled (t ++ t') = handled t ++ handled t'.
Proof. apply omap_app. Qed.

Lemma handle_effect_reading (t : list Effect) :
  Forall handle_effect t -> seen_chats t = [] /\ fetches t = [].
Proof.
  induction 1 as [|e t He _ IH]; [done|].
  destruct e; simpl in He; try done.
Qed.

Lemma for_of_cons {A} (x : A) (l : list A) (body : A -> M unit) (w : World) :
  for_of (x :: l) body w =
  match body x w with
  | (Ok _, w1) => for_of l body w1
  | (Throw e, w1) => (Throw e, w1)
  end.
Proof. reflexivity. Qed.

Lemma call_run (e : Effect) (ans : nat -> option Err) (w : World) :
  call e ans w =
  (match ans (tick w) with None => Ok tt | Some err => Throw err end,
   after_calls w [e] 1).
Proof. unfold call. rewrite after_calls_step. by destruct (ans (tick w)). Qed.

Lemma handle_loop_shape (env : Env) (s : Session.t) (msgs : list Message) :
  forall w, exists t k,
    snd (for_of msgs (fun msg => handleMessage env msg s) w) = after_calls w t k /\
    Forall handle_effect t /\
    match fst (for_of msgs (fun msg => handleMessage env msg s) w) with
    | Ok _ => handled t = msgs
    | Throw _ => handled t `prefix_of` msgs
    end.
Proof.
  induction msgs as [|msg msgs IH]; intros w.
  - exists [], 0%nat. simpl. by rewrite after_calls_nothing.
  - rewrite for_of_cons.
    assert (handleMessage env msg s w
            = (match handleMessage_throws env msg (tick w) with
               | None => Ok tt
               | Some err => Throw err
               end, after_calls w [HandleMessage msg (Session.client s)] 1)) as ->
      by apply call_run.
    destruct (handleMessage_throws env msg (tick w)) as [err|].
    + exists [HandleMessage msg (Session.client s)], 1%nat. simpl.
      split_and!; [done | by repeat constructor |].
      by apply (prefix_app_r [msg] [msg] msgs).
    + destruct (IH (after_calls w [HandleMessage msg (Session.client s)] 1))
        as (t & k & Hw & Ht & Hr).
      exists (HandleMessage msg (Session.client s) :: t), (1 + k)%nat.
      rewrite Hw, after_calls_twice.
      split_and!; [done | by constructor |].
      destruct (fst (for_of msgs _ _)); simpl.
      * by rewrite Hr.
      * by apply prefix_cons.
Qed.

(** What one round of the outer loop leaves in the trace for a
    conversation with something unread: the fetch, the messages handled,
    and the mark, unless the round failed before it. *)
Lemma sync_chat_shape (env : Env) (s : Session.t) (chat : Chat) (w : World) :
  unreadCount chat > 0 ->
  exists th k (marked : bool),
    snd (sync_chat env s chat w)
      = after_calls w (FetchMessages chat (unreadCount chat)
                         :: th ++ (if marked then [SendSeen chat] else [])) k /\
    Forall handle_effect th /\
    (fst (sync_chat env s chat w) = Ok tt -> marked = true) /\
    match fetchMessages_result env chat (unreadCount chat) (tick w) with
    | inl _ => th = [] /\ marked = false
    | inr msgs => handled th `prefix_of` msgs /\ (marked = true -> handled th = msgs)
    end.
Proof.
  intros Hpos. unfold sync_chat. rewrite decide_True by done.
  unfold bind, chat_fetchMessages, call_val.
  destruct (fetchMessages_result env chat (unreadCount chat) (tick w)) as [err|msgs].
  - exists [], 1%nat, false. simpl. by rewrite after_calls_step.
  - set (w1 := next_tick _).
    destruct (handle_loop_shape env s msgs w1) as (th & k & Hw & Hth & Hr).
    destruct (for_of msgs _ w1) as [[[]|err] w2]; simpl in Hw, Hr; subst w2.
    + unfold chat_sendSeen, call. exists th, (1 + k + 1)%nat, true.
      split_and!; try done.
      * subst w1.
        destruct (sendSeen_throws env chat _); simpl;
          by rewrite !after_calls_step, !after_calls_twice.
      * by rewrite Hr.
    + exists th, (1 + k)%nat, false. subst w1. simpl.
      rewrite after_calls_step, after_calls_twice, app_nil_r.
      split_and!; done.
Qed.

Lemma unread_cons (chat : Chat) (chats : list Chat) :
  unread (chat :: chats)
  = if decide (unreadCount chat > 0) then chat :: unread chats else unread chats.
Proof. unfold unread. rewrite filter_cons. by destruct (decide _). Qed.

Lemma sync_loop_readers (env : Env) (s : Session.t) (chats : list Chat) :
  forall w, exists t k,
    snd (for_of chats (sync_chat env s) w) = after_calls w t k /\
    match fst (for_of chats (sync_chat env s) w) with
    | Ok _ =>
        seen_chats t = unread chats /\
        fetches t = map (fun chat => (chat, unreadCount chat)) (unread chats)
    | Throw _ =>
        seen_chats t `prefix_of` unread chats /\
        fetches t `prefix_of` map (fun chat => (chat, unreadCount chat)) (unread chats)
    end /\
    forall inbox : Chat -> list Message,
      (forall chat tk,
         fetchMessages_result env chat (unreadCount chat) tk = inr (inbox chat)) ->
      match fst (for_of chats (sync_chat env s) w) with
      | Ok _ => handled t = unread chats ≫= inbox
      | Throw _ => handled t `prefix_of` (unread chats ≫= inbox)
      end.
Proof.
  induction chats as [|chat chats IH]; intros w.
  - exists [], 0%nat. simpl. by rewrite after_calls_nothing.
  - rewrite unread_cons. simpl. unfold bind.
    destruct (decide (unreadCount chat > 0)) as [Hpos|Hneg].
    + destruct (sync_chat_shape env s chat w Hpos)
        as (th & k & marked & Hw & Hth & Hok & Hfetch).
      destruct (handle_effect_reading th Hth) as (Hseen & Hfet).
      destruct (sync_chat env s chat w) as [[[]|err] w1]; simpl in Hw, Hok; subst w1.
      * rewrite (Hok eq_refl) in *.
        destruct (IH (after_calls w
                        (FetchMessages chat (unreadCount chat) :: th ++ [SendSeen chat])
                        k)) as (t & k' & Hw' & Hr & Hin).
        eexists _, _. rewrite Hw', after_calls_twice. split; [reflexivity|].
        change (FetchMessages chat (unreadCount chat) :: th ++ [SendSeen chat])
          with ([FetchMessages chat (unreadCount chat)] ++ th ++ [SendSeen chat]).
        rewrite !seen_chats_app, !fetches_app, !handled_app, Hseen, Hfet.
        split.
        { destruct (fst (for_of chats _ _)); destruct Hr as [Hr1 Hr2]; simpl.
          - by rewrite Hr1, Hr2.
          - split; by apply prefix_cons. }
        intros inbox Hinbox. specialize (Hin inbox Hinbox).
        rewrite Hinbox in Hfetch. destruct Hfetch as [_ Hall].
        simpl. rewrite (Hall eq_refl), app_nil_r.
        destruct (fst (for_of chats _ _)).
        -- by rewrite Hin.
        -- by apply prefix_app.
      * eexists _, _. split; [reflexivity|].
        change (FetchMessages chat (unreadCount chat)
                  :: th ++ (if marked then [SendSeen chat] else []))
          with ([FetchMessages chat (unreadCount chat)]
                  ++ th ++ (if marked then [SendSeen chat] else [])).
        rewrite !seen_chats_app, !fetches_app, !handled_app, Hseen, Hfet.
        split.
        { split.
          - destruct marked; simpl; [by apply (prefix_app_r [chat] [chat]) |
                                      apply prefix_nil].
          - destruct marked; simpl;
              by apply (prefix_app_r [(chat, unreadCount chat)]
                          [(chat, unreadCount chat)]). }
        intros inbox Hinbox. rewrite Hinbox in Hfetch. destruct Hfetch as [Hpre _].
        assert (handled (if marked then [SendSeen chat] else []) = []) as ->
          by by destruct marked.
        simpl. rewrite app_nil_r. by apply prefix_app_r.
    + unfold sync_chat at 1 3 5. rewrite decide_False by done. simpl.
      destruct (IH w) as (t & k & Hw & Hr). by exists t, k.
Qed.

Lemma getChats_run (env : Env) (s : Session.t) (w : World) :
  client_getChats env s w =
  (match getChats_result env (Session.client s) (tick w) with
   | inl err => Throw err
   | inr chats => Ok chats
   end, after_calls w [GetChats (Session.client s)] 1).
Proof.
  unfold client_getChats, call_val. rewrite after_calls_step.
  by destruct (getChats_result env _ _).
Qed.

(** X16.  Once the engine has listed the conversations, a sync that
    returns normally has fetched and marked seen exactly the
    conversations with an unread count above 0, each once, in the order
    of the list, and has asked for as many messages as the conversation
    counts unread; conversations with nothing unread are not touched.  A
    sync that fails has done so for a first part of them only. *)
Theorem sync_marks_unread (env : Env) (s : Session.t) (w : World) (chats : list Chat) :
  getChats_result env (Session.client s) (tick w) = inr chats ->
  exists t,
    trace (snd (syncUnreadMessages env s w))
      = trace w ++ GetChats (Session.client s) :: t /\
    match fst (syncUnreadMessages env s w) with
    | Ok _ =>
        seen_chats t = unread chats /\
        fetches t = map (fun chat => (chat, unreadCount chat)) (unread chats)
    | Throw _ =>
        seen_chats t `prefix_of` unread chats /\
        fetches t `prefix_of` map (fun chat => (chat, unreadCount chat)) (unread chats)
    end.
Proof.
  intros Hchats. rewrite syncUnreadMessages_loop. unfold bind.
  rewrite getChats_run, Hchats.
  destruct (sync_loop_readers env s chats
              (after_calls w [GetChats (Session.client s)] 1))
    as (t & k & Hw & Hr & _).
  exists t. rewrite Hw. split; [|done].
  simpl. by rewrite <- app_assoc.
Qed.

(** Three conversations, the second with nothing unread, and an
    environment that lists them and has two messages in each. *)
Lemma sync_marks_unread_witness :
  let chats := [mkChat 1 2; mkChat 2 0; mkChat 3 1] in
  let env := mkEnv None (fun _ => None) (fun _ _ => None) (fun _ _ => None)
                   (fun _ _ => inr chats) (fun _ _ _ => inr [10%nat; 11%nat])
                   (fun _ _ => None) (fun _ _ => None) (fun _ => None) in
  exists t,
    trace (snd (syncUnreadMessages env (Session.mk 0 None) sample_world))
      = [] ++ GetChats 0 :: t /\
    match fst (syncUnreadMessages env (Session.mk 0 None) sample_world) with
    | Ok _ =>
        seen_chats t = unread chats /\
        fetches t = map (fun chat => (chat, unreadCount chat)) (unread chats)
    | Throw _ =>
        seen_chats t `prefix_of` unread chats /\
        fetches t `prefix_of` map (fun chat => (chat, unreadCount chat)) (unread chats)
    end.
Proof.
  apply (sync_marks_unread
           (mkEnv None (fun _ => None) (fun _ _ => None) (fun _ _ => None)
                  (fun _ _ => inr [mkChat 1 2; mkChat 2 0; mkChat 3 1])
                  (fun _ _ _ => inr [10%nat; 11%nat])
                  (fun _ _ => None) (fun _ _ => None) (fun _ => None))
           (Session.mk 0 None) sample_world [mkChat 1 2; mkChat 2 0; mkChat 3 1]).
  reflexivity.
Defined.

(** X17.  When no conversation has an unread count above 0, and in
    particular when there is no conversation at all, the sync calls
    [getChats] and nothing else, and returns normally. *)
Theorem sync_nothing_unread (env : Env) (s : Session.t) (w : World) (chats : list Chat) :
  getChats_result env (Session.client s) (tick w) = inr chats ->
  Forall (fun chat => unreadCount chat <= 0) chats ->
  syncUnreadMessages env s w = (Ok tt, after_calls w [GetChats (Session.client s)] 1).
Proof.
  intros Hchats Hnone. rewrite syncUnreadMessages_loop. unfold bind.
  rewrite getChats_run, Hchats.
  generalize (after_calls w [GetChats (Session.client s)] 1). clear Hchats.
  induction Hnone as [|chat chats Hle _ IH]; intros v; [done|].
  rewrite for_of_cons. unfold sync_chat at 1. rewrite decide_False by lia.
  apply IH.
Qed.

Lemma sync_nothing_unread_witness :
  let env := mkEnv None (fun _ => None) (fun _ _ => None) (fun _ _ => None)
                   (fun _ _ => inr [mkChat 1 0; mkChat 2 0]) (fun _ _ _ => inl (External "x"))
                   (fun _ _ => None) (fun _ _ => None) (fun _ => None) in
  syncUnreadMessages env (Session.mk 0 None) sample_world
  = (Ok tt, after_calls sample_world [GetChats 0] 1).
Proof.
  apply (sync_nothing_unread
           (mkEnv None (fun _ => None) (fun _ _ => None) (fun _ _ => None)
                  (fun _ _ => inr [mkChat 1 0; mkChat 2 0])
                  (fun _ _ _ => inl (External "x"))
                  (fun _ _ => None) (fun _ _ => None) (fun _ => None))
           (Session.mk 0 None) sample_world [mkChat 1 0; mkChat 2 0]).
  - reflexivity.
  - repeat constructor; simpl; lia.
Defined.

(** X18.  When the engine answers each fetch with the conversation's
    messages [inbox chat], a sync that returns normally has handed to the
    message pipeline exactly the messages of the unread conversations,
    conversation by conversation in the order of the list and, within a
    conversation, in the order the engine returned them; a sync that
    fails has handed over a first part of that sequence. *)
Theorem sync_handles_in_order (env : Env) (s : Session.t) (w : World)
    (chats : list Chat) (inbox : Chat -> list Message) :
  getChats_result env (Session.client s) (tick w) = inr chats ->
  (forall chat tk,
     fetchMessages_result env chat (unreadCount chat) tk = inr (inbox chat)) ->
  exists t,
    trace (snd (syncUnreadMessages env s w)) = trace w ++ t /\
    match fst (syncUnreadMessages env s w) with
    | Ok _ => handled t = unread chats ≫= inbox
    | Throw _ => handled t `prefix_of` (unread chats ≫= inbox)
    end.
Proof.
  intros Hchats Hinbox. rewrite syncUnreadMessages_loop. unfold bind.
  rewrite getChats_run, Hchats.
  destruct (sync_loop_readers env s chats
              (after_calls w [GetChats (Session.client s)] 1))
    as (t & k & Hw & _ & Hin).
  specialize (Hin inbox Hinbox).
  exists (GetChats (Session.client s) :: t). rewrite Hw. split.
  - simpl. by rewrite <- app_assoc.
  - done.
Qed.

Lemma sync_handles_in_order_witness :
  let chats := [mkChat 1 2; mkChat 2 0; mkChat 3 1] in
  let inbox := fun chat : Chat => [chat_ref chat; (chat_ref chat + 10)%nat] in
  let env := mkEnv None (fun _ => None) (fun _ _ => None) (fun _ _ => None)
                   (fun _ _ => inr chats) (fun chat _ _ => inr (inbox chat))
                   (fun _ _ => None) (fun _ _ => None) (fun _ => None) in
  exists t,
    trace (snd (syncUnreadMessages env (Session.mk 0 None) sample_world)) = [] ++ t /\
    match fst (syncUnreadMessages env (Session.mk 0 None) sample_world) with
    | Ok _ => handled t = unread chats ≫= inbox
    | Throw _ => handled t `prefix_of` (unread chats ≫= inbox)
    end.
Proof.
  apply (sync_handles_in_order
           (mkEnv None (fun _ => None) (fun _ _ => None) (fun _ _ => None)
                  (fun _ _ => inr [mkChat 1 2; mkChat 2 0; mkChat 3 1])
                  (fun chat _ _ => inr [chat_ref chat; (chat_ref chat + 10)%nat])
                  (fun _ _ => None) (fun _ _ => None) (fun _ => None))
           (Session.mk 0 None) sample_world [mkChat 1 2; mkChat 2 0; mkChat 3 1]
           (fun chat => [chat_ref chat; (chat_ref chat + 10)%nat])).
  - reflexivity.
  - reflexivity.
Defined.

(** ** The promise and the registry agree; timers *)

(** X19.  When the [ready] handler runs to its end for an account that
    was not registered and whose promise is pending, the promise is
    resolved with the closure's client tagged with the account's
    identity, and this is the very session [getWbot] then returns for
    that identity. *)
Theorem ready_resolves_with_registered_session (env : Env) (w : World) :
  fst (on_ready env w) = Ok tt ->
  promise w = Pending ->
  findIndex (Whatsapp.id (whatsapp w)) (sessions w) = -1 ->
  let i := Whatsapp.id (whatsapp w) in
  let w' := emit env ready w in
  let s := Session.mk (Session.client (wbot w)) (Some i) in
  promise w' = Resolved s /\
  fst (getWbot i w') = Ok (Some s) /\
  wbot w' = s.
Proof.
  intros Hok Hp Habs i w' s. subst w'. unfold emit, handler.
  assert (wbot (ready_before_sync w) = s /\ promise (ready_before_sync w) = Pending
          /\ sessions (ready_before_sync w) = sessions w ++ [s]) as (Hb & Hpr & Hs).
  { unfold ready_before_sync, register_world. cbv zeta.
    cbn [whatsapp sessions wbot promise emit_effect set_whatsapp
         update_status_qrcode_retries Whatsapp.id].
    fold i. rewrite decide_True by done. by subst s. }
  rewrite on_ready_run in Hok |- *. cbv zeta in *.
  destruct (syncUnreadMessages_framed env (wbot (ready_before_sync w))
              (ready_before_sync w)) as (t & k & Hw & _).
  destruct (syncUnreadMessages env (wbot (ready_before_sync w)) (ready_before_sync w))
    as [[[]|e] w2]; [|done]. simpl in Hw. subst w2.
  unfold resolve, modify. cbn [fst snd promise after_calls]. rewrite Hpr, Hb.
  rewrite getWbot_run. cbn [fst sessions wbot promise set_promise after_calls].
  rewrite Hs, Hb, lookup_session_app.
  destruct (lookup_session_at i (sessions w)) as [(_ & ->)|(k' & s' & _ & Hi & _)];
    [|fold i in Habs; lia].
  unfold lookup_session. simpl. rewrite decide_True by done. done.
Qed.

Lemma ready_resolves_with_registered_session_witness :
  let w := snd (initWbot calm_env sample_account blank_world) in
  let w' := emit calm_env ready w in
  promise w' = Resolved (Session.mk 0 (Some 7)) /\
  fst (getWbot 7 w') = Ok (Some (Session.mk 0 (Some 7))) /\
  wbot w' = Session.mk 0 (Some 7).
Proof.
  apply (ready_resolves_with_registered_session calm_env
           (snd (initWbot calm_env sample_account blank_world))); reflexivity.
Defined.

Lemma sync_effect_no_timer (t : list Effect) :
  Forall sync_effect t -> List.filter is_timer t = [].
Proof.
  induction 1 as [|e t He _ IH]; [done|].
  destruct e; simpl in He; try done.
Qed.

(** X20.  A reconnection is scheduled by the [disconnected] and
    [auth_failure] handlers and by nothing else: each of them sets
    exactly one timer, for the closure's [reconnect] after
    [RECONNECT_INTERVAL], and the handlers of [qr], [authenticated] and
    [ready] set none. *)
Theorem timers_only_on_disconnect (env : Env) (ev : Event) (w : World) :
  exists t,
    trace (emit env ev w) = trace w ++ t /\
    List.filter is_timer t =
    if disconnects ev
    then [SetTimeout (reconnectCb (Session.client (wbot w))) RECONNECT_INTERVAL]
    else [].
Proof.
  destruct ev; unfold emit, handler.
  - unfold on_qr. straight_line. rewrite registerIfAbsent_run. simpl.
    destruct (register_world_facts
                (set_whatsapp (update_qr code (whatsapp w))
                   (emit_effect (QrGenerate code)
                      (emit_effect (Log info (SessionColon (sessionName w))) w))))
      as (_ & _ & _ & -> & _).
    simpl. eexists. rewrite <- !app_assoc. split; [reflexivity|done].
  - eexists. split; [reflexivity|done].
  - unfold on_auth_failure. straight_line.
    destruct (decide (Whatsapp.retries (whatsapp w) > 1)); simpl;
      (eexists; rewrite <- !app_assoc; split; [reflexivity|done]).
  - unfold on_disconnected. straight_line.
    eexists. rewrite <- !app_assoc. split; [reflexivity|done].
  - destruct (ready_before_sync_account w) as (_ & c & Htr).
    destruct (on_ready_after env w) as (t & k & Ht & [->| [_ ->]]);
      cbn [trace after_calls set_promise]; rewrite Htr;
      (eexists; rewrite <- !app_assoc; split; [reflexivity|]);
      rewrite List.filter_app, (sync_effect_no_timer t Ht); done.
Qed.
